(** * async_termux_api: the notification registry, its callback listener
      and the action dispatcher of [termux.py], embedded in Rocq.

    Python values are modelled as follows.
    - [int] is [Z]; [str] and [bytes] are [string]; [bool] is [bool].
    - A coroutine function bound as an action callback is an opaque
      identifier ([Callback]); [ActionCallback] is [option Callback],
      [None] being Python's [None]. A queued coroutine is recorded, not
      run: what a handler does to the manager is a later call of the
      program.
    - [Notification] objects are mutable and shared between the caller and
      the manager's set, so they live in a store ([objs]) and are referred
      to by address.
    - The manager's [set] is the list of its elements in insertion order,
      with [discard] and [add] written out under the class's [__eq__] and
      [__hash__]. Python fixes no iteration order for a set; the order only
      shows in the order of the removal commands of
      [remove_all_notifications].
    - A method that can raise returns an [outcome]; the state is threaded
      through both results.
    - The paths of the external programs and the built-ins [int] and
      [bytes.decode] are parameters of the model. *)

From Stdlib Require Import Ascii String ZArith Lia DecimalString.
From Stdlib Require Import DecimalPos DecimalZ.
From stdpp Require Import base decidable option list strings sorting.

Local Open Scope Z_scope.
Local Open Scope string_scope.
Local Open Scope list_scope.

(** ** Module constants *)

Definition ACTION_CLICK := "click".
Definition ACTION_DELETE := "delete".
Definition ACTION_BUTTON1 := "button1".
Definition ACTION_BUTTON2 := "button2".
Definition ACTION_BUTTON3 := "button3".
Definition ACTION_MEDIA_PLAY := "media_play".
Definition ACTION_MEDIA_PAUSE := "media_pause".
Definition ACTION_MEDIA_NEXT := "media_next".
Definition ACTION_MEDIA_PREVIOUS := "media_previous".

(** ** Python built-ins used by the module *)

(** [str(i)] for an [int]. *)
Definition str (i : Z) : string := NilZero.string_of_int (Z.to_int i).

(** Truth value of a [str]: non-empty. *)
Definition nonempty (s : string) : bool :=
  match s with EmptyString => false | String _ _ => true end.

(** [s[1:]]. *)
Definition tail_str (s : string) : string :=
  match s with EmptyString => EmptyString | String _ t => t end.

(** [s.split(sep)] for a one-character separator: every occurrence cuts,
    empty fields are kept, the empty string gives one empty field. *)
Fixpoint split (sep : ascii) (s : string) : list string :=
  match s with
  | EmptyString => [EmptyString]
  | String c t =>
      if Ascii.eqb c sep then EmptyString :: split sep t
      else match split sep t with
           | h :: r => String c h :: r
           | [] => [String c EmptyString]
           end
  end.

(** [shlex.quote]: the empty string becomes two single quotes; a string of
    safe characters (ASCII letters, digits and [_@%+=:,./-]) is kept; any
    other string is wrapped in single quotes, each single quote in it
    replaced by the five characters quote, double quote, quote, double
    quote, quote. *)
Definition is_safe (c : ascii) : bool :=
  let n := nat_of_ascii c in
  ((48 <=? n) && (n <=? 57) || (65 <=? n) && (n <=? 90) || (97 <=? n) && (n <=? 122)
   || bool_decide (c ∈ ["_"; "@"; "%"; "+"; "="; ":"; ","; "."; "/"; "-"]%char))%nat.

Fixpoint all_safe (s : string) : bool :=
  match s with
  | EmptyString => true
  | String c t => is_safe c && all_safe t
  end.

Definition squote : ascii := "'"%char.
Definition dquote : ascii := ascii_of_nat 34.

Fixpoint escape_squotes (s : string) : string :=
  match s with
  | EmptyString => EmptyString
  | String c t =>
      if Ascii.eqb c squote
      then String squote (String dquote (String squote (String dquote
             (String squote (escape_squotes t)))))
      else String c (escape_squotes t)
  end.

Definition shlex_quote (s : string) : string :=
  if negb (nonempty s) then String squote (String squote EmptyString)
  else if all_safe s then s
  else String squote (escape_squotes s) +:+ String squote EmptyString.

(** [shlex.join]: the quoted arguments separated by single spaces. *)
Definition shlex_join (args : list string) : string :=
  String.concat " " (map shlex_quote args).

(** [int] on the plain decimal numerals, every other string refused, and
    [decode] on ASCII input: a concrete reading of the two built-ins the
    listener takes as parameters, for running the model. *)
Fixpoint digits (s : string) (acc : Z) : option Z :=
  match s with
  | EmptyString => Some acc
  | String c t =>
      let d := nat_of_ascii c in
      if ((48 <=? d) && (d <=? 57))%nat then digits t (10 * acc + Z.of_nat (d - 48))
      else None
  end.

Definition int_decimal (s : string) : option Z :=
  match s with
  | EmptyString => None
  | String "-" t => if nonempty t then Z.opp <$> digits t 0 else None
  | _ => digits s 0
  end.

Definition decode_ascii (raw : string) : option string := Some raw.

(** ** class Notification *)

(** A coroutine function, known by its identity only. *)
Definition Callback := nat.
Definition ActionCallback := option Callback.

(** Truth value of an [ActionCallback]: [None] is false, a function is true. *)
Definition bound (cb : ActionCallback) : bool :=
  match cb with Some _ => true | None => false end.

Record Notification := mkNotification {
  n_id : Z;
  content : string;
  title : string;
  group : string;
  priority : string;
  n_type : string;
  alert_once : bool;
  ongoing : bool;
  sound : bool;
  image_path : string;
  icon : string;
  vibrate : string;
  button1 : string;
  button2 : string;
  button3 : string;
  action_button1 : ActionCallback;
  action_button2 : ActionCallback;
  action_button3 : ActionCallback;
  action_click : ActionCallback;
  action_delete : ActionCallback;
  action_media_play : ActionCallback;
  action_media_pause : ActionCallback;
  action_media_next : ActionCallback;
  action_media_previous : ActionCallback
}.

(** [Notification.__init__]: the twelve display attributes come from the
    caller, labels start empty and every binding starts absent. *)
Definition new_Notification (n_id : Z) (content title group priority n_type : string)
    (alert_once ongoing sound : bool) (image_path icon vibrate : string) : Notification :=
  mkNotification n_id content title group priority n_type alert_once ongoing sound
    image_path icon vibrate "" "" "" None None None None None None None None None.

(** Attribute assignments [self.f = v], one per attribute the class assigns
    after construction. *)
Definition assign_button1 (v : string) (self : Notification) : Notification :=
  let 'mkNotification i c t g p ty ao og so ip ic vb _ b2 b3 a1 a2 a3 ak ad pl pa nx pv := self in
  mkNotification i c t g p ty ao og so ip ic vb v b2 b3 a1 a2 a3 ak ad pl pa nx pv.
Definition assign_button2 (v : string) (self : Notification) : Notification :=
  let 'mkNotification i c t g p ty ao og so ip ic vb b1 _ b3 a1 a2 a3 ak ad pl pa nx pv := self in
  mkNotification i c t g p ty ao og so ip ic vb b1 v b3 a1 a2 a3 ak ad pl pa nx pv.
Definition assign_button3 (v : string) (self : Notification) : Notification :=
  let 'mkNotification i c t g p ty ao og so ip ic vb b1 b2 _ a1 a2 a3 ak ad pl pa nx pv := self in
  mkNotification i c t g p ty ao og so ip ic vb b1 b2 v a1 a2 a3 ak ad pl pa nx pv.
Definition assign_action_button1 (v : ActionCallback) (self : Notification) : Notification :=
  let 'mkNotification i c t g p ty ao og so ip ic vb b1 b2 b3 _ a2 a3 ak ad pl pa nx pv := self in
  mkNotification i c t g p ty ao og so ip ic vb b1 b2 b3 v a2 a3 ak ad pl pa nx pv.
Definition assign_action_button2 (v : ActionCallback) (self : Notification) : Notification :=
  let 'mkNotification i c t g p ty ao og so ip ic vb b1 b2 b3 a1 _ a3 ak ad pl pa nx pv := self in
  mkNotification i c t g p ty ao og so ip ic vb b1 b2 b3 a1 v a3 ak ad pl pa nx pv.
Definition assign_action_button3 (v : ActionCallback) (self : Notification) : Notification :=
  let 'mkNotification i c t g p ty ao og so ip ic vb b1 b2 b3 a1 a2 _ ak ad pl pa nx pv := self in
  mkNotification i c t g p ty ao og so ip ic vb b1 b2 b3 a1 a2 v ak ad pl pa nx pv.
Definition assign_action_click (v : ActionCallback) (self : Notification) : Notification :=
  let 'mkNotification i c t g p ty ao og so ip ic vb b1 b2 b3 a1 a2 a3 _ ad pl pa nx pv := self in
  mkNotification i c t g p ty ao og so ip ic vb b1 b2 b3 a1 a2 a3 v ad pl pa nx pv.
Definition assign_action_delete (v : ActionCallback) (self : Notification) : Notification :=
  let 'mkNotification i c t g p ty ao og so ip ic vb b1 b2 b3 a1 a2 a3 ak _ pl pa nx pv := self in
  mkNotification i c t g p ty ao og so ip ic vb b1 b2 b3 a1 a2 a3 ak v pl pa nx pv.
Definition assign_action_media_play (v : ActionCallback) (self : Notification) : Notification :=
  let 'mkNotification i c t g p ty ao og so ip ic vb b1 b2 b3 a1 a2 a3 ak ad _ pa nx pv := self in
  mkNotification i c t g p ty ao og so ip ic vb b1 b2 b3 a1 a2 a3 ak ad v pa nx pv.
Definition assign_action_media_pause (v : ActionCallback) (self : Notification) : Notification :=
  let 'mkNotification i c t g p ty ao og so ip ic vb b1 b2 b3 a1 a2 a3 ak ad pl _ nx pv := self in
  mkNotification i c t g p ty ao og so ip ic vb b1 b2 b3 a1 a2 a3 ak ad pl v nx pv.
Definition assign_action_media_next (v : ActionCallback) (self : Notification) : Notification :=
  let 'mkNotification i c t g p ty ao og so ip ic vb b1 b2 b3 a1 a2 a3 ak ad pl pa _ pv := self in
  mkNotification i c t g p ty ao og so ip ic vb b1 b2 b3 a1 a2 a3 ak ad pl pa v pv.

Definition set_click_action (action_callback : ActionCallback) (self : Notification) :=
  assign_action_click action_callback self.
Definition set_delete_action (action_callback : ActionCallback) (self : Notification) :=
  assign_action_delete action_callback self.
Definition set_media_play_action (action_callback : ActionCallback) (self : Notification) :=
  assign_action_media_play action_callback self.
Definition set_media_pause_action (action_callback : ActionCallback) (self : Notification) :=
  assign_action_media_pause action_callback self.
(** Defined twice in the class with the same body; no setter assigns
    [action_media_previous]. *)
Definition set_media_next_action (action_callback : ActionCallback) (self : Notification) :=
  assign_action_media_next action_callback self.

(** [set_button1]: the [if] block clears both attributes and falls through
    to the two unconditional assignments that follow it. *)
Definition set_button1 (button_text : string) (action_callback : ActionCallback)
    (self : Notification) : Notification :=
  let self :=
    if String.eqb button_text "" || negb (bound action_callback)
    then assign_action_button1 None (assign_button1 "" self)
    else self in
  let self := assign_button1 button_text self in
  assign_action_button1 action_callback self.

Definition set_button2 (button_text : string) (action_callback : ActionCallback)
    (self : Notification) : Notification :=
  let self :=
    if String.eqb button_text "" || negb (bound action_callback)
    then assign_action_button2 None (assign_button2 "" self)
    else self in
  let self := assign_button2 button_text self in
  assign_action_button2 action_callback self.

Definition set_button3 (button_text : string) (action_callback : ActionCallback)
    (self : Notification) : Notification :=
  let self :=
    if String.eqb button_text "" || negb (bound action_callback)
    then assign_action_button3 None (assign_button3 "" self)
    else self in
  let self := assign_button3 button_text self in
  assign_action_button3 action_callback self.

(** ** class NotificationManager *)

(** An [asyncio.Server], as far as [start_serving], [close] and
    [is_serving] read and write it: [close] returns at once when the
    sockets are already released, and otherwise releases them and clears
    the serving flag. *)
Record Server := mkServer {
  sockets_held : bool;
  serving : bool
}.

Definition Server_close (s : Server) : Server :=
  if sockets_held s then mkServer false false else s.

Definition Server_start_serving (s : Server) : Server :=
  if serving s then s else mkServer (sockets_held s) true.

(** Address of a [Notification] object in the store. *)
Definition addr := nat.

Record NotificationManager := mkManager {
  socketpath : string;
  server : option Server;
  notification_set : list addr;
  _nid : Z
}.

(** The state of a run: the store of [Notification] objects, the manager,
    the commands handed to [_run] and the coroutines handed to
    [asyncio.create_task], both oldest first. *)
Record world := mkWorld {
  objs : list Notification;
  nm : NotificationManager;
  ran : list string;
  tasks : list Callback
}.

Definition with_nm (f : NotificationManager -> NotificationManager) (w : world) : world :=
  mkWorld (objs w) (f (nm w)) (ran w) (tasks w).
Definition with_server (s : option Server) (self : NotificationManager) :=
  mkManager (socketpath self) s (notification_set self) (_nid self).
Definition with_notification_set (l : list addr) (self : NotificationManager) :=
  mkManager (socketpath self) (server self) l (_nid self).
Definition with_nid (i : Z) (self : NotificationManager) :=
  mkManager (socketpath self) (server self) (notification_set self) i.

Inductive exn := AttributeError | ValueError | UnicodeDecodeError | NameError.

Inductive outcome (A : Type) :=
| Returned (a : A)
| Raised (e : exn).
Arguments Returned {A} a.
Arguments Raised {A} e.

Definition M (A : Type) : Type := world -> outcome A * world.

Definition ret {A} (a : A) : M A := fun w => (Returned a, w).
Definition raise {A} (e : exn) : M A := fun w => (Raised e, w).
Definition bind {A B} (m : M A) (k : A -> M B) : M B := fun w =>
  match m w with
  | (Returned a, w') => k a w'
  | (Raised e, w') => (Raised e, w')
  end.
Definition modify (f : world -> world) : M unit := fun w => (Returned tt, f w).
Definition gets {A} (f : world -> A) : M A := fun w => (Returned (f w), w).

#[global] Instance M_ret : MRet M := @ret.
#[global] Instance M_bind : MBind M := fun A B k m => bind m k.

(** [asyncio.create_task(cb())]: the coroutine is queued, not run. *)
Definition create_task (cb : Callback) (w : world) : world :=
  mkWorld (objs w) (nm w) (ran w) (tasks w ++ [cb]).

(** [await _run(cmd)] with a [str]: the shell command is issued; its exit
    status and output are not looked at by any caller in the manager. *)
Definition _run (cmd : string) : M unit :=
  modify (fun w => mkWorld (objs w) (nm w) (ran w ++ [cmd]) (tasks w)).

(** [n_id] of the object at an address. *)
Definition n_id_at (w : world) (a : addr) : option Z := n_id <$> objs w !! a.

(** [set.discard(item)] and [set.add(item)] under [Notification.__eq__] and
    [__hash__], which look at [n_id] only: [discard] drops the element equal
    to [item], [add] inserts [item] unless an equal element is present. *)
Definition set_discard (item : addr) (w : world) : world :=
  with_nm (fun self =>
    with_notification_set
      (filter (fun b => n_id_at w b <> n_id_at w item) (notification_set self)) self) w.

Definition set_add (item : addr) (w : world) : world :=
  with_nm (fun self =>
    with_notification_set
      (if decide (Exists (fun b => n_id_at w b = n_id_at w item) (notification_set self))
       then notification_set self
       else notification_set self ++ [item]) self) w.

(** [for n in self.notification_set]: the elements with their objects. *)
Definition live (w : world) : list (addr * Notification) :=
  omap (fun a => pair a <$> objs w !! a) (notification_set (nm w)).

Section Manager.

Set Default Proof Using "Type".

(** Paths of the external programs, found on the search path when the
    module is loaded. *)
Variables TERMUX_NOTIFICATION TERMUX_NOTIFICATION_REMOVE CURL : string.

(** [bytes.decode] for UTF-8 and the built-in [int] on a [str]; [None]
    stands for [UnicodeDecodeError] and [ValueError]. *)
Variable decode_utf8 : string -> option string.
Variable int : string -> option Z.

(** [NotificationManager.__init__] in a process that holds the objects
    [store]; [path] is the socket path with its random component. *)
Definition init (path : string) (store : list Notification) : world :=
  mkWorld store (mkManager path None [] 0) [] [].

Definition _curl_cmd (self : NotificationManager) (action_id : string) : string :=
  shlex_join [CURL; "-GET"; "--unix-socket"; socketpath self; "http://localhost/" +:+ action_id].

(** One [args.append(flag)] or [args.extend([flag, value])]. *)
Inductive piece :=
| Append (flag : string)
| Extend (flag value : string).

Definition words (p : piece) : list string :=
  match p with
  | Append f => [f]
  | Extend f v => [f; v]
  end.

#[global] Instance piece_eq_dec : EqDecision piece.
Proof. solve_decision. Defined.

Definition when (b : bool) (p : piece) : list piece := if b then [p] else [].

(** The f-string naming a notification and an action. *)
Definition action_id (n : Notification) (action : string) : string :=
  str (n_id n) +:+ ":" +:+ action.

(** The calls on [args] made by [_notification_cmd], in source order. *)
Definition _notification_pieces (self : NotificationManager) (n : Notification) : list piece :=
  [Extend "--id" (str (n_id n))] ++
  [Extend "--content" (content n)] ++
  when (nonempty (title n)) (Extend "--title" (title n)) ++
  when (nonempty (group n)) (Extend "--group" (group n)) ++
  when (nonempty (priority n)) (Extend "--priority" (priority n)) ++
  when (nonempty (n_type n)) (Extend "--type" (n_type n)) ++
  when (alert_once n) (Append "--alert-once") ++
  when (ongoing n) (Append "--ongoing") ++
  when (sound n) (Append "--sound") ++
  when (nonempty (image_path n)) (Extend "--image-path" (image_path n)) ++
  when (nonempty (icon n)) (Extend "--icon" (icon n)) ++
  when (nonempty (vibrate n)) (Extend "--vibrate" (vibrate n)) ++
  when (bound (action_click n) || negb (ongoing n))
    (Extend "--action" (_curl_cmd self (action_id n ACTION_CLICK))) ++
  when (bound (action_delete n) || negb (ongoing n))
    (Extend "--on-delete" (_curl_cmd self (action_id n ACTION_DELETE))) ++
  (if String.eqb (n_type n) "media" then
     when (bound (action_media_play n))
       (Extend "--media-play" (_curl_cmd self (action_id n ACTION_MEDIA_PLAY))) ++
     when (bound (action_media_pause n))
       (Extend "--media-pause" (_curl_cmd self (action_id n ACTION_MEDIA_PAUSE))) ++
     when (bound (action_media_next n))
       (Extend "--media-next" (_curl_cmd self (action_id n ACTION_MEDIA_NEXT))) ++
     when (bound (action_media_previous n))
       (Extend "--media-previous" (_curl_cmd self (action_id n ACTION_MEDIA_PREVIOUS)))
   else []) ++
  when (nonempty (button1 n)) (Extend "--button1" (button1 n)) ++
  when (nonempty (button2 n)) (Extend "--button2" (button2 n)) ++
  when (nonempty (button3 n)) (Extend "--button3" (button3 n)) ++
  when (bound (action_button1 n))
    (Extend "--button1-action" (_curl_cmd self (action_id n ACTION_BUTTON1))) ++
  when (bound (action_button2 n))
    (Extend "--button2-action" (_curl_cmd self (action_id n ACTION_BUTTON2))) ++
  when (bound (action_button3 n))
    (Extend "--button3-action" (_curl_cmd self (action_id n ACTION_BUTTON3))) ++
  when (nonempty (title n)) (Extend "--title" (title n)).

(** The list [args] when [_notification_cmd] reaches its [return]. *)
Definition _notification_args (self : NotificationManager) (n : Notification) : list string :=
  TERMUX_NOTIFICATION :: flat_map words (_notification_pieces self n).

Definition _notification_cmd (self : NotificationManager) (n : Notification) : string :=
  shlex_join (_notification_args self n).

(** A method called on an address that holds no object has no Python
    counterpart (a name always refers to an object); the model raises
    [NameError] there. *)
Definition deref (a : addr) : M Notification := fun w =>
  match objs w !! a with
  | Some n => (Returned n, w)
  | None => (Raised NameError, w)
  end.

Definition send_notification (notification_item : addr) : M unit :=
  n ← deref notification_item;
  modify (set_discard notification_item) ;;
  modify (set_add notification_item) ;;
  cmd ← gets (fun w => _notification_cmd (nm w) n);
  _run cmd.

Definition remove_notification (notification_item : addr) : M unit :=
  n ← deref notification_item;
  modify (set_discard notification_item) ;;
  _run (shlex_join [TERMUX_NOTIFICATION_REMOVE; str (n_id n)]).

(** [asyncio.gather] over one [_run] per element of the set; the commands
    are issued in iteration order. *)
Fixpoint run_all (cmds : list string) : M unit :=
  match cmds with
  | [] => ret tt
  | c :: cs => _run c ;; run_all cs
  end.

Definition remove_all_notifications : M unit :=
  l ← gets live;
  run_all (map (fun p => shlex_join [TERMUX_NOTIFICATION_REMOVE; str (n_id (snd p))]) l).

(** [asyncio.start_unix_server] with [start_serving=False] binds the path
    (a socket file left at the path is unlinked first) and returns a new
    server holding its socket; [start_serving] then sets it serving. *)
Definition start_callback_server : M unit :=
  modify (with_nm (with_server (Some (mkServer true false)))) ;;
  modify (with_nm (fun self => with_server (Server_start_serving <$> server self) self)).

Definition is_serving (self : NotificationManager) : bool :=
  match server self with
  | Some s => serving s
  | None => false
  end.

Definition stop_callback_server : M unit := fun w =>
  match server (nm w) with
  | Some s => (Returned tt, with_nm (with_server (Some (Server_close s))) w)
  | None => (Raised AttributeError, w)
  end.

Definition new_nid : M Z :=
  modify (with_nm (fun self => with_nid (_nid self + 1) self)) ;;
  gets (fun w => _nid (nm w)).

(** [if cb: asyncio.create_task(cb())] once the guard has been passed. *)
Definition fire (cb : ActionCallback) : M unit :=
  match cb with
  | Some h => modify (create_task h)
  | None => ret tt
  end.

Definition _on_action_callback (nid : Z) (action : string) : M unit :=
  l ← gets live;
  match find (fun p => Z.eqb (n_id (snd p)) nid) l with
  | None => ret tt
  | Some (a, n) =>
      (if String.eqb action ACTION_CLICK && bound (action_click n)
       then fire (action_click n)
       else if String.eqb action ACTION_DELETE && bound (action_delete n)
       then fire (action_delete n)
       else if String.eqb action ACTION_MEDIA_PLAY && bound (action_media_play n)
       then fire (action_media_play n)
       else if String.eqb action ACTION_MEDIA_PAUSE && bound (action_media_pause n)
       then fire (action_media_pause n)
       else if String.eqb action ACTION_MEDIA_NEXT && bound (action_media_next n)
       then fire (action_media_next n)
       else if String.eqb action ACTION_MEDIA_PREVIOUS && bound (action_media_previous n)
       then fire (action_media_previous n)
       else if String.eqb action ACTION_BUTTON1 && bound (action_button1 n)
       then fire (action_button1 n)
       else if String.eqb action ACTION_BUTTON2 && bound (action_button2 n)
       then fire (action_button2 n)
       else if String.eqb action ACTION_BUTTON3 && bound (action_button3 n)
       then fire (action_button3 n)
       else ret tt) ;;
      if String.eqb action ACTION_CLICK || String.eqb action ACTION_DELETE
      then modify (set_discard a)
      else ret tt
  end.

Definition CRLF : string := String (ascii_of_nat 13) (String (ascii_of_nat 10) EmptyString).
Definition RESPONSE : string := "HTTP/1.1 200 OK" +:+ CRLF +:+ CRLF +:+ "ok".

(** [_callback_server(reader, writer)] on a connection whose first line is
    [raw]; the value returned is what was written to [writer], which is then
    closed. The two unpacking assignments raise [ValueError] unless [split]
    gives exactly three and exactly two fields. *)
Definition _callback_server (raw : string) : M string :=
  match decode_utf8 raw with
  | None => raise UnicodeDecodeError
  | Some line =>
      match split " " line with
      | [method; http_path; http_version] =>
          match split ":" http_path with
          | [n_id_s; n_act] =>
              match int (tail_str n_id_s) with
              | None => raise ValueError
              | Some nid => _on_action_callback nid n_act ;; ret RESPONSE
              end
          | _ => raise ValueError
          end
      | _ => raise ValueError
      end
  end.

(** [try: m  except: pass]. *)
Definition try_pass (m : M unit) : M unit := fun w => (Returned tt, snd (m w)).

Definition _on_exit_task : M unit :=
  try_pass (b ← gets (fun w => is_serving (nm w));
            if b : bool then stop_callback_server else ret tt) ;;
  remove_all_notifications.

(** ** The event loop and the caller *)

(** A connection reaches the callback only while the server is serving.
    asyncio runs [_callback_server] for it in a task of its own: what the
    coroutine raises ends that task and is kept in it. *)
Definition connection (raw : string) (w : world) : world :=
  if is_serving (nm w) then snd (_callback_server raw w) else w.

Definition accept_loop (conns : list string) (w : world) : world :=
  foldl (fun w raw => connection raw w) w conns.

(** The setters of [Notification], as calls on an object of the store. *)
Inductive setter :=
| Set_click_action (cb : ActionCallback)
| Set_delete_action (cb : ActionCallback)
| Set_media_play_action (cb : ActionCallback)
| Set_media_pause_action (cb : ActionCallback)
| Set_media_next_action (cb : ActionCallback)
| Set_button1 (button_text : string) (cb : ActionCallback)
| Set_button2 (button_text : string) (cb : ActionCallback)
| Set_button3 (button_text : string) (cb : ActionCallback).

Definition apply_setter (s : setter) : Notification -> Notification :=
  match s with
  | Set_click_action cb => set_click_action cb
  | Set_delete_action cb => set_delete_action cb
  | Set_media_play_action cb => set_media_play_action cb
  | Set_media_pause_action cb => set_media_pause_action cb
  | Set_media_next_action cb => set_media_next_action cb
  | Set_button1 t cb => set_button1 t cb
  | Set_button2 t cb => set_button2 t cb
  | Set_button3 t cb => set_button3 t cb
  end.

(** What a program does with the module: build a [Notification] (it gets
    the next free address), call a setter on one, call a public method of
    the manager, let a connection arrive, or end (the exit hook runs). *)
Inductive call :=
| New (n : Z) (content title group priority n_type : string)
      (alert_once ongoing sound : bool) (image_path icon vibrate : string)
| Mutate (a : addr) (s : setter)
| Send (a : addr)
| Remove (a : addr)
| Remove_all
| Start
| Stop
| New_nid
| Connection (raw : string)
| Exit.

Definition exec (c : call) (w : world) : world :=
  match c with
  | New n c t g p ty ao og so ip ic vb =>
      mkWorld (objs w ++ [new_Notification n c t g p ty ao og so ip ic vb])
              (nm w) (ran w) (tasks w)
  | Mutate a s => mkWorld (alter (apply_setter s) a (objs w)) (nm w) (ran w) (tasks w)
  | Send a => snd (send_notification a w)
  | Remove a => snd (remove_notification a w)
  | Remove_all => snd (remove_all_notifications w)
  | Start => snd (start_callback_server w)
  | Stop => snd (stop_callback_server w)
  | New_nid => snd (new_nid w)
  | Connection raw => connection raw w
  | Exit => snd (_on_exit_task w)
  end.

Definition run (cs : list call) (w : world) : world :=
  foldl (fun w c => exec c w) w cs.

(** The values returned by the [new_nid] calls of a program, in order. *)
Fixpoint nids (cs : list call) (w : world) : list (outcome Z) :=
  match cs with
  | [] => []
  | New_nid :: cs' => fst (new_nid w) :: nids cs' (exec New_nid w)
  | c :: cs' => nids cs' (exec c w)
  end.

(** ** Notions used to state the properties *)

(** The ids of the live notifications, in iteration order. *)
Definition live_ids (w : world) : list Z := (fun p => n_id (snd p)) <$> live w.

(** The handler bound on a record for an action token of the callback
    protocol; no handler for any other token. *)
Definition binding (action : string) (n : Notification) : ActionCallback :=
  if String.eqb action "click" then action_click n
  else if String.eqb action "delete" then action_delete n
  else if String.eqb action "button1" then action_button1 n
  else if String.eqb action "button2" then action_button2 n
  else if String.eqb action "button3" then action_button3 n
  else if String.eqb action "media_play" then action_media_play n
  else if String.eqb action "media_pause" then action_media_pause n
  else if String.eqb action "media_next" then action_media_next n
  else if String.eqb action "media_previous" then action_media_previous n
  else None.

(** The two terminal actions. *)
Definition terminal (action : string) : bool :=
  String.eqb action "click" || String.eqb action "delete".

(** The world a dispatch leaves: the first live record with the id is
    looked up, its binding for the action is queued, and a terminal action
    discards the record. *)
Definition dispatched (nid : Z) (action : string) (w : world) : world :=
  match find (fun p => Z.eqb (n_id (snd p)) nid) (live w) with
  | None => w
  | Some (a, n) =>
      let w1 := match binding action n with
                | Some h => create_task h w
                | None => w
                end in
      if terminal action then set_discard a w1 else w1
  end.

(** The nine action tokens of the callback protocol. *)
Definition tokens : list string :=
  [ACTION_CLICK; ACTION_DELETE; ACTION_BUTTON1; ACTION_BUTTON2; ACTION_BUTTON3;
   ACTION_MEDIA_PLAY; ACTION_MEDIA_PAUSE; ACTION_MEDIA_NEXT; ACTION_MEDIA_PREVIOUS].

(** A malformed request: bytes that do not decode, a line that is not three
    fields separated by single spaces, a path that is not two fields
    separated by a colon, an id part that [int] refuses, or an action that
    is none of the nine tokens. *)
Inductive malformed (raw : string) : Prop :=
| Undecodable :
    decode_utf8 raw = None -> malformed raw
| Bad_line line :
    decode_utf8 raw = Some line -> length (split " " line) <> 3%nat -> malformed raw
| Bad_path line m p v :
    decode_utf8 raw = Some line -> split " " line = [m; p; v] ->
    length (split ":" p) <> 2%nat -> malformed raw
| Bad_id line m p v i act :
    decode_utf8 raw = Some line -> split " " line = [m; p; v] ->
    split ":" p = [i; act] -> int (tail_str i) = None -> malformed raw
| Unknown_action line m p v i act :
    decode_utf8 raw = Some line -> split " " line = [m; p; v] ->
    split ":" p = [i; act] -> act ∉ tokens -> malformed raw.

(** The flag under which [_notification_cmd] passes the callback command
    of an action. *)
Definition callback_flag (action : string) : string :=
  if String.eqb action "click" then "--action"
  else if String.eqb action "delete" then "--on-delete"
  else if String.eqb action "media_play" then "--media-play"
  else if String.eqb action "media_pause" then "--media-pause"
  else if String.eqb action "media_next" then "--media-next"
  else if String.eqb action "media_previous" then "--media-previous"
  else "--" +:+ action +:+ "-action".

(** The display command carries the callback address of an action: the
    action's flag followed by the command encoding (id, action). *)
Definition wired (self : NotificationManager) (n : Notification) (action : string) : Prop :=
  Extend (callback_flag action) (_curl_cmd self (action_id n action))
    ∈ _notification_pieces self n.

Definition flag_of (p : piece) : string :=
  match p with Append f => f | Extend f _ => f end.

(** How many times a flag is put on the command line. *)
Definition count_flag (f : string) (l : list piece) : nat :=
  length (filter (fun p => flag_of p = f) l).

(** The ids under which the elements of the set hash and compare. *)
Definition ids (w : world) : list (option Z) := n_id_at w <$> notification_set (nm w).

(** Well-formed set: every element is an object of the store and no two
    elements carry the same id. *)
Definition wf (w : world) : Prop := NoDup (ids w) /\ None ∉ ids w.

(** The flags that take no value. *)
Definition switches : list string := ["--alert-once"; "--ongoing"; "--sound"].

(** The argument list read back the way the display program reads it: a
    switch stands alone, any other flag takes the next argument. *)
Fixpoint read_pieces (args : list string) : list piece :=
  match args with
  | [] => []
  | f :: rest =>
      if bool_decide (f ∈ switches) then Append f :: read_pieces rest
      else match rest with
           | v :: rest' => Extend f v :: read_pieces rest'
           | [] => [Append f]
           end
  end.

Definition well_flagged (p : piece) : Prop :=
  match p with
  | Append f => f ∈ switches
  | Extend f _ => f ∉ switches
  end.

(** ** States and programs for running the model *)

Definition sock := "/tmp/cb.sock".

(** A plain notification with id [i]. *)
Definition plain (i : Z) : Notification :=
  new_Notification i "hi" "" "" "" "" false false false "" "" "".

(** A manager that has one live notification, id 1, with a handler on
    button 1 only, and a started server. *)
Definition one_live : world :=
  mkWorld [set_button1 "OK" (Some 7%nat) (plain 1)]
          (mkManager sock (Some (mkServer true true)) [0%nat] 1) [] [].

(** Two objects with the same id and different click handlers; the first
    has been sent. *)
Definition two_same_id : list Notification :=
  [set_click_action (Some 11%nat) (plain 5); set_click_action (Some 22%nat) (plain 5)].

Definition program8 : list call :=
  [ Start; New_nid;
    New 1 "hi" "" "" "" "" false false false "" "" "";
    Mutate 0%nat (Set_button1 "OK" (Some 7%nat));
    Send 0%nat;
    Connection "GET /1:button1 HTTP/1.1";
    Connection "GET /1:button1 HTTP/1.1" ].

(** ** The live set *)

(** [tauto] without the parameters of the section in its way. *)
Ltac prop :=
  try clear decode_utf8; try clear int; try clear TERMUX_NOTIFICATION;
  try clear TERMUX_NOTIFICATION_REMOVE; try clear CURL; tauto.

Lemma filter_id {A} (P : A -> Prop) `{forall x, Decision (P x)} (l : list A) :
  (forall x, x ∈ l -> P x) -> filter P l = l.
Proof.
  induction l as [|x l IH]; intros Hl; [reflexivity|].
  rewrite filter_cons_True by (apply Hl; left).
  f_equal. apply IH. intros y Hy. apply Hl. by right.
Qed.

Lemma live_elem a n w :
  (a, n) ∈ live w <-> a ∈ notification_set (nm w) /\ objs w !! a = Some n.
Proof.
  unfold live. rewrite list_elem_of_omap. split.
  - intros (b & Hb & Hn). destruct (objs w !! b) eqn:E; simplify_eq/=. auto.
  - intros [Ha Hn]. exists a. rewrite Hn. auto.
Qed.

Lemma live_ids_elem i w :
  i ∈ live_ids w <-> exists a n, (a, n) ∈ live w /\ n_id n = i.
Proof.
  unfold live_ids. rewrite list_elem_of_fmap. split.
  - intros ([a n] & -> & H). eauto.
  - intros (a & n & H & <-). exists (a, n). auto.
Qed.

Lemma find_live_Some nid w a n :
  find (fun p => Z.eqb (n_id (snd p)) nid) (live w) = Some (a, n) ->
  (a, n) ∈ live w /\ n_id n = nid.
Proof.
  intros H. apply find_some in H as [H1 H2].
  apply list_elem_of_In in H1. apply Z.eqb_eq in H2. auto.
Qed.

Lemma find_live_None nid w :
  find (fun p => Z.eqb (n_id (snd p)) nid) (live w) = None <-> nid ∉ live_ids w.
Proof.
  split.
  - intros H Hin. apply live_ids_elem in Hin as (a & n & Hin & Hid).
    apply list_elem_of_In in Hin.
    pose proof (find_none _ _ H _ Hin) as Hf. cbn in Hf. lia.
  - intros H. destruct (find _ (live w)) as [[a n]|] eqn:E; [|reflexivity].
    apply find_live_Some in E as [E1 E2]. exfalso. apply H.
    apply live_ids_elem. eauto.
Qed.

Lemma live_set_discard a w :
  live (set_discard a w) =
  filter (fun p => Some (n_id (snd p)) <> n_id_at w a) (live w).
Proof.
  unfold live, set_discard. cbn.
  induction (notification_set (nm w)) as [|b l IH]; [reflexivity|].
  rewrite filter_cons.
  assert (Hb : n_id_at w b = n_id <$> objs w !! b) by reflexivity.
  destruct (decide (n_id_at w b <> n_id_at w a)) as [Hne|He];
    cbn; destruct (objs w !! b) as [m|]; cbn; cbn in Hb; rewrite ?IH; try reflexivity.
  - rewrite <- Hb. by destruct (decide _).
  - rewrite <- Hb. by destruct (decide _).
Qed.

Lemma live_ids_set_discard a w i :
  n_id_at w a = Some i ->
  live_ids (set_discard a w) = filter (fun j => j <> i) (live_ids w).
Proof.
  intros Ha. unfold live_ids. rewrite live_set_discard, Ha.
  induction (live w) as [|[b m] l IH]; [reflexivity|].
  rewrite fmap_cons, !filter_cons. cbn [snd].
  destruct (decide (n_id m = i)) as [He|Hne].
  - rewrite !decide_False by (intros H; apply H; congruence). exact IH.
  - rewrite !decide_True by congruence. by rewrite fmap_cons, IH.
Qed.

Lemma live_n_id_at a n w : (a, n) ∈ live w -> n_id_at w a = Some (n_id n).
Proof. intros H. apply live_elem in H as [_ H]. unfold n_id_at. by rewrite H. Qed.

(** ** The dispatcher *)

Lemma dispatch_eq nid action w :
  _on_action_callback nid action w = (Returned tt, dispatched nid action w).
Proof.
  unfold _on_action_callback, dispatched, mbind, M_bind, bind, gets.
  destruct (find _ (live w)) as [[a n]|]; [|reflexivity].
  unfold binding, terminal, ACTION_CLICK, ACTION_DELETE, ACTION_MEDIA_PLAY,
    ACTION_MEDIA_PAUSE, ACTION_MEDIA_NEXT, ACTION_MEDIA_PREVIOUS,
    ACTION_BUTTON1, ACTION_BUTTON2, ACTION_BUTTON3.
  repeat match goal with
  | |- context [String.eqb action ?t] =>
      destruct (String.eqb_spec action t) as [->|?]; cbn [andb orb]
  end.
  all: cbn.
  all: repeat match goal with
  | |- context [bound ?c] => destruct c; cbn
  end; reflexivity.
Qed.

(** What a dispatch does to the set of live ids: a terminal action on a
    live id removes exactly that id, every other dispatch leaves the set of
    addresses as it is. *)
Lemma dispatched_live_ids nid action w :
  live_ids (dispatched nid action w) =
  if terminal action then filter (fun j => j <> nid) (live_ids w) else live_ids w.
Proof.
  unfold dispatched.
  destruct (find _ (live w)) as [[a n]|] eqn:E.
  - apply find_live_Some in E as [Hin Hid].
    apply live_n_id_at in Hin. rewrite Hid in Hin.
    destruct (terminal action); [|by destruct (binding action n)].
    destruct (binding action n); by rewrite (live_ids_set_discard a _ nid).
  - apply find_live_None in E.
    destruct (terminal action); [|reflexivity].
    symmetry. apply filter_id. intros j Hj ->. contradiction.
Qed.

Lemma terminal_tokens action :
  terminal action = true <-> action = ACTION_CLICK \/ action = ACTION_DELETE.
Proof.
  unfold terminal, ACTION_CLICK, ACTION_DELETE.
  rewrite orb_true_iff, !String.eqb_eq. reflexivity.
Qed.

Lemma dispatched_not_terminal nid action w :
  terminal action = false ->
  notification_set (nm (dispatched nid action w)) = notification_set (nm w) /\
  objs (dispatched nid action w) = objs w.
Proof.
  intros Ht. unfold dispatched. rewrite Ht.
  destruct (find _ (live w)) as [[a n]|]; [|done].
  by destruct (binding action n).
Qed.

(** C1. Dispatching [click] or [delete] for a live id returns normally and
    leaves that id out of the live set, whatever is bound on the record;
    every other live id stays live. Dispatching any other action token
    leaves the set of the manager as it was. *)
Theorem terminal_action_removal nid action w :
  nid ∈ live_ids w ->
  let r := _on_action_callback nid action w in
  fst r = Returned tt /\
  (action = ACTION_CLICK \/ action = ACTION_DELETE ->
     (nid ∉ live_ids (snd r)) /\
     forall i, i <> nid -> (i ∈ live_ids (snd r) <-> i ∈ live_ids w)) /\
  (action <> ACTION_CLICK -> action <> ACTION_DELETE ->
     notification_set (nm (snd r)) = notification_set (nm w)).
Proof.
  intros Hlive r. subst r. rewrite dispatch_eq. cbn [fst snd].
  split; [reflexivity|]. split.
  - intros Ht. apply terminal_tokens in Ht.
    rewrite dispatched_live_ids, Ht. split.
    + rewrite list_elem_of_filter. prop.
    + intros i Hi. rewrite list_elem_of_filter. prop.
  - intros H1 H2. apply dispatched_not_terminal.
    destruct (terminal action) eqn:Ht; [|reflexivity].
    apply terminal_tokens in Ht. prop.
Qed.

(** C3. When every live record carrying the id (there is none if the id is
    not live) has no handler bound for the action, the dispatch returns
    normally and queues no coroutine; when the id is not live the whole
    state is unchanged. *)
Theorem unknown_routing_is_noop nid action w :
  (forall a n, (a, n) ∈ live w -> n_id n = nid -> binding action n = None) ->
  let r := _on_action_callback nid action w in
  fst r = Returned tt /\
  tasks (snd r) = tasks w /\
  (nid ∉ live_ids w -> snd r = w).
Proof.
  intros Hb r. subst r. rewrite dispatch_eq. cbn [fst snd].
  split; [reflexivity|]. unfold dispatched.
  destruct (find _ (live w)) as [[a n]|] eqn:E.
  - apply find_live_Some in E as [Hin Hid].
    rewrite (Hb a n Hin Hid). split.
    + by destruct (terminal action).
    + intros Hn. exfalso. apply Hn. apply live_ids_elem. eauto.
  - done.
Qed.

(** ** How each operation changes the state *)

Lemma fmap_filter_comm {A B} (f : A -> B) (P : B -> Prop)
    `{forall y, Decision (P y)} `{forall x, Decision (P (f x))} (l : list A) :
  f <$> filter (fun x => P (f x)) l = filter P (f <$> l).
Proof.
  induction l as [|x l IH]; [reflexivity|].
  rewrite fmap_cons, !filter_cons.
  repeat case_decide; rewrite ?fmap_cons, IH; done.
Qed.

Lemma ids_set_discard a w :
  ids (set_discard a w) = filter (fun x => x <> n_id_at w a) (ids w).
Proof.
  unfold ids, set_discard. cbn.
  change (n_id_at (with_nm _ w)) with (n_id_at w).
  apply (fmap_filter_comm (n_id_at w) (fun x => x <> n_id_at w a)).
Qed.

Lemma wf_set_discard a w : wf w -> wf (set_discard a w).
Proof.
  intros [Hnd Hall]. unfold wf. rewrite ids_set_discard. split.
  - by apply NoDup_filter.
  - rewrite list_elem_of_filter. prop.
Qed.

Lemma sent_not_member a w :
  ~ Exists (fun b => n_id_at (set_discard a w) b = n_id_at (set_discard a w) a)
      (notification_set (nm (set_discard a w))).
Proof.
  rewrite Exists_exists. intros (b & Hb & Heq).
  cbn in Hb. apply list_elem_of_filter in Hb as [Hne _]. by apply Hne.
Qed.

(** The world after [send_notification] on the object [n] at address [a]. *)
Definition sent (a : addr) (n : Notification) (w : world) : world :=
  mkWorld (objs w)
    (with_notification_set (notification_set (nm (set_discard a w)) ++ [a]) (nm w))
    (ran w ++ [_notification_cmd (nm w) n]) (tasks w).

Lemma send_eq a w :
  send_notification a w =
  match objs w !! a with
  | Some n => (Returned tt, sent a n w)
  | None => (Raised NameError, w)
  end.
Proof.
  unfold send_notification, mbind, M_bind, bind, deref.
  destruct (objs w !! a) as [n|]; [|reflexivity].
  cbn -[_notification_cmd set_add set_discard].
  unfold set_add, sent, with_nm. f_equal.
  rewrite decide_False by apply sent_not_member. reflexivity.
Qed.

Lemma remove_eq a w :
  remove_notification a w =
  match objs w !! a with
  | Some n => (Returned tt,
               mkWorld (objs w) (nm (set_discard a w))
                 (ran w ++ [shlex_join [TERMUX_NOTIFICATION_REMOVE; str (n_id n)]]) (tasks w))
  | None => (Raised NameError, w)
  end.
Proof.
  unfold remove_notification, mbind, M_bind, bind, deref.
  by destruct (objs w !! a).
Qed.

Lemma run_all_eq cmds w :
  run_all cmds w = (Returned tt, mkWorld (objs w) (nm w) (ran w ++ cmds) (tasks w)).
Proof.
  revert w. induction cmds as [|c cs IH]; intros w; cbn.
  - rewrite app_nil_r. by destruct w.
  - unfold mbind, M_bind, bind. cbn. rewrite IH. cbn. by rewrite <- app_assoc.
Qed.

Lemma remove_all_eq w :
  remove_all_notifications w =
  (Returned tt,
   mkWorld (objs w) (nm w)
     (ran w ++ map (fun p => shlex_join [TERMUX_NOTIFICATION_REMOVE; str (n_id (snd p))])
                   (live w))
     (tasks w)).
Proof.
  unfold remove_all_notifications, mbind, M_bind, bind, gets. apply run_all_eq.
Qed.

Lemma stop_eq w :
  stop_callback_server w =
  match server (nm w) with
  | Some s => (Returned tt, with_nm (with_server (Some (Server_close s))) w)
  | None => (Raised AttributeError, w)
  end.
Proof. reflexivity. Qed.

(** The world the exit hook leaves: a serving server is closed, then one
    removal command per live notification is issued. *)
Lemma exit_eq w :
  _on_exit_task w =
  (Returned tt,
   mkWorld (objs w)
     (if is_serving (nm w) then with_server (Server_close <$> server (nm w)) (nm w) else nm w)
     (ran w ++ map (fun p => shlex_join [TERMUX_NOTIFICATION_REMOVE; str (n_id (snd p))])
                   (live w))
     (tasks w)).
Proof.
  unfold _on_exit_task, mbind, M_bind, bind, try_pass, gets.
  cbn -[remove_all_notifications]. rewrite remove_all_eq.
  unfold is_serving, stop_callback_server, ret.
  destruct w as [o [p [s|] l i] r t]; cbn -[shlex_join]; [|reflexivity].
  destruct (serving s); reflexivity.
Qed.

(** A connection either changes nothing or leaves what one dispatch leaves. *)
Lemma connection_cases raw w :
  connection raw w = w \/ exists nid action, connection raw w = dispatched nid action w.
Proof.
  unfold connection, _callback_server.
  destruct (is_serving (nm w)); [|by left].
  destruct (decode_utf8 raw) as [line|]; [|by left].
  destruct (split " " line) as [|m [|p [|v [|]]]]; try by left.
  destruct (split ":" p) as [|i [|act [|]]]; try by left.
  destruct (int (tail_str i)) as [nid|]; [|by left].
  right. exists nid, act.
  unfold mbind, M_bind, bind. by rewrite dispatch_eq.
Qed.

Lemma apply_setter_n_id s n : n_id (apply_setter s n) = n_id n.
Proof.
  destruct s, n; cbn; try reflexivity;
    unfold set_button1, set_button2, set_button3; cbn;
    by repeat case_match.
Qed.

Lemma n_id_at_alter s a b (l : list Notification) :
  n_id <$> alter (apply_setter s) a l !! b = n_id <$> l !! b.
Proof.
  destruct (decide (a = b)) as [->|Hne].
  - rewrite list_lookup_alter_eq. destruct (l !! b); cbn; [|done].
    by rewrite apply_setter_n_id.
  - by rewrite list_lookup_alter_ne.
Qed.

(** ** The set stays well formed *)

Lemma ids_ext w w' :
  notification_set (nm w') = notification_set (nm w) ->
  (forall a, a ∈ notification_set (nm w) -> n_id_at w' a = n_id_at w a) ->
  ids w' = ids w.
Proof.
  intros Hs Ha. unfold ids. rewrite Hs.
  apply list_eq. intros k. rewrite !list_lookup_fmap.
  destruct (notification_set (nm w) !! k) as [a|] eqn:E; [|done].
  cbn. f_equal. apply Ha. by eapply list_elem_of_lookup_2.
Qed.

Lemma wf_ext w w' :
  notification_set (nm w') = notification_set (nm w) ->
  (forall a, a ∈ notification_set (nm w) -> n_id_at w' a = n_id_at w a) ->
  wf w -> wf w'.
Proof. intros Hs Ha. unfold wf. by rewrite (ids_ext w w'). Qed.

Lemma wf_frame w w' :
  objs w' = objs w -> notification_set (nm w') = notification_set (nm w) ->
  wf w -> wf w'.
Proof.
  intros Ho Hs. apply wf_ext; [done|].
  intros a _. unfold n_id_at. by rewrite Ho.
Qed.

Lemma ids_sent a n w :
  objs w !! a = Some n ->
  ids (sent a n w) = filter (fun x => x <> Some (n_id n)) (ids w) ++ [Some (n_id n)].
Proof.
  intros Hn.
  assert (Ha : n_id_at w a = Some (n_id n)) by (unfold n_id_at; by rewrite Hn).
  unfold ids, sent. cbn [nm with_notification_set notification_set].
  rewrite fmap_app. f_equal.
  - change (ids (set_discard a w) = filter (fun x => x <> Some (n_id n)) (ids w)).
    by rewrite ids_set_discard, Ha.
  - cbn. by rewrite <- Ha.
Qed.

Lemma wf_sent a n w : objs w !! a = Some n -> wf w -> wf (sent a n w).
Proof.
  intros Hn [Hnd Hall]. unfold wf. rewrite (ids_sent a n w Hn). split.
  - apply NoDup_app. split; [by apply NoDup_filter|]. split.
    + intros x Hx Hx'. apply list_elem_of_filter in Hx as [Hx _].
      apply list_elem_of_singleton in Hx'. contradiction.
    + apply NoDup_singleton.
  - rewrite elem_of_app, list_elem_of_filter, list_elem_of_singleton.
    intros [[_ ?]|?]; [contradiction|discriminate].
Qed.

Lemma wf_dispatched nid action w : wf w -> wf (dispatched nid action w).
Proof.
  intros Hw. unfold dispatched.
  destruct (find _ (live w)) as [[a n]|]; [|done].
  assert (forall w1, objs w1 = objs w -> nm w1 = nm w ->
            wf (if terminal action then set_discard a w1 else w1)) as H.
  { intros w1 Ho Hm. assert (wf w1) by (apply (wf_frame w); by rewrite ?Hm).
    destruct (terminal action); [by apply wf_set_discard|done]. }
  destruct (binding action n); by apply H.
Qed.

Lemma wf_exec c w : wf w -> wf (exec c w).
Proof.
  intros Hw. destruct c; cbn [exec].
  - apply (wf_ext w); [done| |done].
    intros a Ha. unfold n_id_at. cbn.
    destruct (objs w !! a) as [m|] eqn:E.
    + by rewrite (lookup_app_l_Some _ _ _ _ E).
    + exfalso. apply Hw. unfold ids. apply list_elem_of_fmap.
      exists a. unfold n_id_at. by rewrite E.
  - apply (wf_ext w); [done| |done].
    intros b _. unfold n_id_at. cbn. apply n_id_at_alter.
  - rewrite send_eq. destruct (objs w !! a) as [n|] eqn:E; [|done].
    by apply wf_sent.
  - rewrite remove_eq. destruct (objs w !! a) as [n|] eqn:E; [|done].
    cbn [snd]. apply (wf_frame (set_discard a w)); [done|done|].
    by apply wf_set_discard.
  - rewrite remove_all_eq. by apply (wf_frame w).
  - by apply (wf_frame w).
  - rewrite stop_eq. destruct (server (nm w)); by apply (wf_frame w).
  - by apply (wf_frame w).
  - destruct (connection_cases raw w) as [->|(nid & act & ->)]; [done|].
    by apply wf_dispatched.
  - rewrite exit_eq. apply (wf_frame w); [done| |done].
    cbn. by destruct (is_serving (nm w)).
Qed.

Lemma wf_init path store : wf (init path store).
Proof. split; [constructor|]. unfold ids. cbn. apply not_elem_of_nil. Qed.

Lemma wf_run cs w : wf w -> wf (run cs w).
Proof.
  revert w. induction cs as [|c cs IH]; intros w Hw; [done|].
  cbn. apply IH. by apply wf_exec.
Qed.

Lemma wf_live_ids w : wf w -> Some <$> live_ids w = ids w.
Proof.
  intros [_ Hall]. unfold live_ids, live, ids in *.
  induction (notification_set (nm w)) as [|a l IH]; [reflexivity|].
  rewrite fmap_cons in Hall. apply not_elem_of_cons in Hall as [Ha Hl].
  cbn. unfold n_id_at in *. destruct (objs w !! a) as [n|]; [|done].
  cbn. f_equal. by apply IH.
Qed.

Lemma wf_NoDup_live_ids w : wf w -> NoDup (live_ids w).
Proof.
  intros Hw. apply (NoDup_fmap_1 Some). rewrite (wf_live_ids w Hw). apply Hw.
Qed.

Lemma filter_none {A} (P : A -> Prop) `{forall x, Decision (P x)} (l : list A) :
  (forall x, x ∈ l -> ~ P x) -> filter P l = [].
Proof.
  induction l as [|x l IH]; intros Hl; [reflexivity|].
  rewrite filter_cons_False by (apply Hl; left).
  apply IH. intros y Hy. apply Hl. by right.
Qed.

Lemma live_sent a n w :
  objs w !! a = Some n ->
  live (sent a n w) =
  filter (fun p => Some (n_id (snd p)) <> Some (n_id n)) (live w) ++ [(a, n)].
Proof.
  intros Hn.
  assert (Ha : n_id_at w a = Some (n_id n)) by (unfold n_id_at; by rewrite Hn).
  rewrite <- Ha, <- live_set_discard.
  unfold live, sent. cbn [nm objs with_notification_set notification_set].
  rewrite omap_app. f_equal. cbn. by rewrite Hn.
Qed.

Lemma only_sent_carries_id a n w :
  objs w !! a = Some n ->
  filter (fun p => n_id (snd p) = n_id n) (live (sent a n w)) = [(a, n)].
Proof.
  intros Hn. rewrite (live_sent a n w Hn), filter_app.
  rewrite filter_none.
  - by rewrite filter_cons_True.
  - intros [b m] Hb. cbn. apply list_elem_of_filter in Hb as [Hb _]. cbn in Hb. congruence.
Qed.

Lemma find_in_sent a n w :
  objs w !! a = Some n ->
  find (fun p => Z.eqb (n_id (snd p)) (n_id n)) (live (sent a n w)) = Some (a, n).
Proof.
  intros Hn. pose proof (only_sent_carries_id a n w Hn) as Hf.
  destruct (find _ (live (sent a n w))) as [[b m]|] eqn:E.
  - apply find_live_Some in E as [Hin Hid].
    assert ((b, m) ∈ [(a, n)]) as Hbm.
    { rewrite <- Hf. apply list_elem_of_filter. by split. }
    apply list_elem_of_singleton in Hbm. by rewrite Hbm.
  - apply find_live_None in E. exfalso. apply E.
    apply live_ids_elem. exists a, n. split; [|done].
    assert ((a, n) ∈ [(a, n)]) as Han by apply list_elem_of_singleton, eq_refl.
    rewrite <- Hf in Han. by apply list_elem_of_filter in Han as [_ ?].
Qed.

Lemma dispatched_tasks nid action w a n :
  find (fun p => Z.eqb (n_id (snd p)) nid) (live w) = Some (a, n) ->
  tasks (dispatched nid action w) = tasks w ++ option_list (binding action n).
Proof.
  intros Hf. unfold dispatched. rewrite Hf.
  destruct (binding action n), (terminal action); cbn; by rewrite ?app_nil_r.
Qed.

(** C2. In every state a program can reach, no two live notifications
    carry the same id. Sending the object at [a] leaves it as the only live
    entry with its id, whatever was live under that id before, and a
    dispatch for that id then queues what is bound on that object for the
    action and nothing else. *)
Theorem replace_semantics cs path store a n action :
  let w := run cs (init path store) in
  objs w !! a = Some n ->
  let w2 := snd (send_notification a w) in
  NoDup (live_ids w) /\
  NoDup (live_ids w2) /\
  filter (fun p => n_id (snd p) = n_id n) (live w2) = [(a, n)] /\
  tasks (snd (_on_action_callback (n_id n) action w2)) =
    tasks w2 ++ option_list (binding action n).
Proof.
  intros w Hn w2.
  assert (Hw : wf w) by apply wf_run, wf_init.
  assert (Hw2 : w2 = sent a n w) by (subst w2; by rewrite send_eq, Hn).
  rewrite Hw2. repeat split.
  - by apply wf_NoDup_live_ids.
  - by apply wf_NoDup_live_ids, wf_sent.
  - by apply only_sent_carries_id.
  - rewrite dispatch_eq. cbn [snd].
    apply dispatched_tasks with a. by apply find_in_sent.
Qed.

(** ** Fresh ids *)

Lemma nid_exec c w :
  _nid (nm (exec c w)) =
  match c with New_nid => _nid (nm w) + 1 | _ => _nid (nm w) end.
Proof.
  destruct c; cbn [exec]; try reflexivity.
  - rewrite send_eq. by destruct (objs w !! a).
  - rewrite remove_eq. by destruct (objs w !! a).
  - by rewrite remove_all_eq.
  - rewrite stop_eq. by destruct (server (nm w)).
  - destruct (connection_cases raw w) as [->|(nid & act & ->)]; [done|].
    unfold dispatched. destruct (find _ (live w)) as [[a n]|]; [|done].
    by destruct (binding act n), (terminal act).
  - rewrite exit_eq. cbn. by destruct (is_serving (nm w)).
Qed.

Lemma nids_cons c cs w :
  nids (c :: cs) w =
  match c with
  | New_nid => Returned (_nid (nm w) + 1) :: nids cs (exec c w)
  | _ => nids cs (exec c w)
  end.
Proof. by destruct c. Qed.

Lemma nids_increasing cs w :
  exists l, nids cs w = Returned <$> l /\
            StronglySorted Z.lt l /\ Forall (fun i => _nid (nm w) < i) l.
Proof.
  revert w. induction cs as [|c cs IH]; intros w.
  - exists []. repeat constructor.
  - destruct (IH (exec c w)) as (l & Hl & Hs & Hf).
    rewrite nids_cons. rewrite nid_exec in Hf.
    destruct c; try (exists l; by rewrite Hl).
    exists (_nid (nm w) + 1 :: l). rewrite Hl. split; [done|]. split.
    + by constructor.
    + constructor; [lia|]. eapply Forall_impl; [exact Hf|]. cbn. intros; lia.
Qed.

Lemma StronglySorted_lt_NoDup (l : list Z) : StronglySorted Z.lt l -> NoDup l.
Proof.
  induction 1 as [|x l Hs IH Hf]; constructor; [|done].
  intros Hx. rewrite Forall_forall in Hf. specialize (Hf x Hx). lia.
Qed.

Lemma nids_consecutive k w :
  nids (replicate k New_nid) w =
  (fun i => Returned (_nid (nm w) + Z.of_nat i)) <$> seq 1 k.
Proof.
  revert w. induction k as [|k IH]; intros w; [reflexivity|].
  cbn [replicate]. rewrite nids_cons, IH, nid_exec.
  cbn [seq]. rewrite fmap_cons. f_equal.
  rewrite <- (fmap_S_seq 1), <- list_fmap_compose.
  apply list_fmap_ext. intros _ i _. cbn. f_equal. lia.
Qed.

(** C7. In any program run on a new manager, every [new_nid] call returns,
    and the values returned are strictly increasing, positive and pairwise
    distinct; [k] calls in a row return 1, ..., [k]. *)
Theorem id_uniqueness cs k path store :
  (exists l, nids cs (init path store) = Returned <$> l /\
             StronglySorted Z.lt l /\ Forall (fun i => 0 < i) l /\ NoDup l) /\
  nids (replicate k New_nid) (init path store) =
    (fun i => Returned (Z.of_nat i)) <$> seq 1 k.
Proof.
  split.
  - destruct (nids_increasing cs (init path store)) as (l & Hl & Hs & Hf).
    exists l. repeat split; [done|done|done|by apply StronglySorted_lt_NoDup].
  - by rewrite nids_consecutive.
Qed.

(** ** Removal *)

(** C10. [remove_all_notifications] returns after issuing one removal
    command per live notification and changes neither the set nor the
    store, so every notification live before is live after; by contrast
    [remove_notification] on an object leaves its id out of the live set. *)
Theorem remove_all_keeps_live_set w a n :
  objs w !! a = Some n ->
  let r := remove_all_notifications w in
  fst r = Returned tt /\
  ran (snd r) =
    ran w ++ map (fun p => shlex_join [TERMUX_NOTIFICATION_REMOVE; str (n_id (snd p))]) (live w) /\
  notification_set (nm (snd r)) = notification_set (nm w) /\
  objs (snd r) = objs w /\
  live (snd r) = live w /\
  n_id n ∉ live_ids (snd (remove_notification a w)).
Proof.
  intros Hn r. subst r. rewrite remove_all_eq, remove_eq, Hn. cbn [fst snd].
  repeat split.
  assert (Ha : n_id_at w a = Some (n_id n)) by (unfold n_id_at; by rewrite Hn).
  change (n_id n ∉ live_ids (set_discard a w)).
  rewrite (live_ids_set_discard a w _ Ha), list_elem_of_filter. prop.
Qed.

(** ** The listener *)

Lemma unknown_token action n :
  action ∉ tokens -> binding action n = None /\ terminal action = false.
Proof.
  intros Hn. unfold binding, terminal.
  repeat match goal with
  | |- context [String.eqb action ?t] =>
      destruct (String.eqb_spec action t) as [->|?];
        [exfalso; apply Hn; unfold tokens; by repeat constructor|]
  end.
  done.
Qed.

Lemma dispatched_unknown nid action w : action ∉ tokens -> dispatched nid action w = w.
Proof.
  intros Hn. unfold dispatched.
  destruct (find _ (live w)) as [[a n]|]; [|done].
  by destruct (unknown_token action n Hn) as [-> ->].
Qed.

Lemma callback_server_malformed raw w :
  malformed raw ->
  snd (_callback_server raw w) = w /\
  (fst (_callback_server raw w) = Returned RESPONSE \/
   exists e, fst (_callback_server raw w) = Raised e).
Proof.
  unfold _callback_server.
  intros [Hd|line Hd Hl|line m p v Hd Hl Hp|line m p v i act Hd Hl Hp Hi
          |line m p v i act Hd Hl Hp Ha]; rewrite Hd.
  - split; [done|]. right. by eexists.
  - destruct (split " " line) as [|? [|? [|? [|]]]];
      first [by exfalso; apply Hl | split; [done|right; by eexists]].
  - rewrite Hl.
    destruct (split ":" p) as [|? [|? [|]]];
      first [by exfalso; apply Hp | split; [done|right; by eexists]].
  - rewrite Hl, Hp, Hi. split; [done|]. right. by eexists.
  - rewrite Hl, Hp. destruct (int (tail_str i)) as [nid|].
    + unfold mbind, M_bind, bind. rewrite dispatch_eq.
      cbn. rewrite (dispatched_unknown nid act w Ha). auto.
    + split; [done|]. right. by eexists.
Qed.

(** C8. A connection whose request is malformed changes nothing: the
    callback either raises inside its own task or answers without having
    found a handler, no coroutine is queued, the live set and the server
    are as before, and the connections that follow are served as if it had
    never arrived. *)
Theorem malformed_request_dropped raw w conns :
  malformed raw ->
  snd (_callback_server raw w) = w /\
  connection raw w = w /\
  tasks (connection raw w) = tasks w /\
  is_serving (nm (connection raw w)) = is_serving (nm w) /\
  accept_loop (raw :: conns) w = accept_loop conns w.
Proof.
  intros Hm. destruct (callback_server_malformed raw w Hm) as [Hs _].
  assert (Hc : connection raw w = w).
  { unfold connection. by destruct (is_serving (nm w)). }
  cbn [accept_loop foldl]. unfold accept_loop. by rewrite Hc.
Qed.

(** ** The listener's lifecycle *)

Lemma start_when_serving w :
  let r := start_callback_server w in
  fst r = Returned tt /\ is_serving (nm (snd r)) = true.
Proof. done. Qed.

Lemma stop_with_server w s :
  server (nm w) = Some s -> (serving s = true -> sockets_held s = true) ->
  let r := stop_callback_server w in
  fst r = Returned tt /\ is_serving (nm (snd r)) = false.
Proof.
  intros Hs Hok r. subst r. rewrite stop_eq, Hs. cbn.
  unfold is_serving. cbn. unfold Server_close.
  destruct (sockets_held s), (serving s); cbn; auto.
  split; [done|]. symmetry. by apply Hok.
Qed.

(** ** The display command *)

Lemma elem_of_when x b p : x ∈ when b p <-> b = true /\ x = p.
Proof.
  destruct b; cbn.
  - rewrite list_elem_of_singleton. prop.
  - split; [by intros ?%not_elem_of_nil|by intros [? _]].
Qed.

Definition with_flag (f : string) (l : list piece) : list piece :=
  filter (fun p => flag_of p = f) l.

Lemma with_flag_nil f : with_flag f [] = [].
Proof. reflexivity. Qed.

Lemma with_flag_cons f p l :
  with_flag f (p :: l) =
  if String.eqb (flag_of p) f then p :: with_flag f l else with_flag f l.
Proof.
  unfold with_flag. rewrite filter_cons.
  destruct (String.eqb_spec (flag_of p) f); by case_decide.
Qed.

Lemma with_flag_app f l1 l2 : with_flag f (l1 ++ l2) = with_flag f l1 ++ with_flag f l2.
Proof. apply filter_app. Qed.

Lemma with_flag_when f b p :
  with_flag f (when b p) = if String.eqb (flag_of p) f then when b p else [].
Proof.
  destruct b; cbn [when].
  - rewrite with_flag_cons, with_flag_nil. by destruct (String.eqb _ _).
  - by destruct (String.eqb _ _).
Qed.

Lemma elem_of_with_flag x l : x ∈ l <-> x ∈ with_flag (flag_of x) l.
Proof. unfold with_flag. rewrite list_elem_of_filter. prop. Qed.

(** Evaluates [with_flag f] on the pieces of a notification for a literal
    flag [f]. *)
Ltac by_flag n :=
  unfold _notification_pieces;
  destruct (String.eqb (n_type n) "media");
  rewrite ?with_flag_app, ?with_flag_when, ?with_flag_cons, ?with_flag_nil;
  cbn [flag_of String.eqb Ascii.eqb Bool.eqb app];
  rewrite ?app_nil_r; reflexivity.

Lemma click_pieces self n :
  with_flag "--action" (_notification_pieces self n) =
  when (bound (action_click n) || negb (ongoing n))
    (Extend "--action" (_curl_cmd self (action_id n ACTION_CLICK))).
Proof. by_flag n. Qed.

Lemma delete_pieces self n :
  with_flag "--on-delete" (_notification_pieces self n) =
  when (bound (action_delete n) || negb (ongoing n))
    (Extend "--on-delete" (_curl_cmd self (action_id n ACTION_DELETE))).
Proof. by_flag n. Qed.

Lemma button1_action_pieces self n :
  with_flag "--button1-action" (_notification_pieces self n) =
  when (bound (action_button1 n))
    (Extend "--button1-action" (_curl_cmd self (action_id n ACTION_BUTTON1))).
Proof. by_flag n. Qed.

Lemma button2_action_pieces self n :
  with_flag "--button2-action" (_notification_pieces self n) =
  when (bound (action_button2 n))
    (Extend "--button2-action" (_curl_cmd self (action_id n ACTION_BUTTON2))).
Proof. by_flag n. Qed.

Lemma button3_action_pieces self n :
  with_flag "--button3-action" (_notification_pieces self n) =
  when (bound (action_button3 n))
    (Extend "--button3-action" (_curl_cmd self (action_id n ACTION_BUTTON3))).
Proof. by_flag n. Qed.

Lemma media_play_pieces self n :
  with_flag "--media-play" (_notification_pieces self n) =
  if String.eqb (n_type n) "media"
  then when (bound (action_media_play n))
         (Extend "--media-play" (_curl_cmd self (action_id n ACTION_MEDIA_PLAY)))
  else [].
Proof. by_flag n. Qed.

Lemma media_pause_pieces self n :
  with_flag "--media-pause" (_notification_pieces self n) =
  if String.eqb (n_type n) "media"
  then when (bound (action_media_pause n))
         (Extend "--media-pause" (_curl_cmd self (action_id n ACTION_MEDIA_PAUSE)))
  else [].
Proof. by_flag n. Qed.

Lemma media_next_pieces self n :
  with_flag "--media-next" (_notification_pieces self n) =
  if String.eqb (n_type n) "media"
  then when (bound (action_media_next n))
         (Extend "--media-next" (_curl_cmd self (action_id n ACTION_MEDIA_NEXT)))
  else [].
Proof. by_flag n. Qed.

Lemma media_previous_pieces self n :
  with_flag "--media-previous" (_notification_pieces self n) =
  if String.eqb (n_type n) "media"
  then when (bound (action_media_previous n))
         (Extend "--media-previous" (_curl_cmd self (action_id n ACTION_MEDIA_PREVIOUS)))
  else [].
Proof. by_flag n. Qed.

Lemma in_when_self b (p : piece) : p ∈ when b p <-> b = true.
Proof. rewrite elem_of_when. prop. Qed.

Lemma in_media_when (ty : string) b (p : piece) :
  p ∈ (if String.eqb ty "media" then when b p else []) <-> ty = "media" /\ b = true.
Proof.
  destruct (String.eqb_spec ty "media") as [->|Hne].
  - rewrite in_when_self. prop.
  - rewrite elem_of_nil. prop.
Qed.

Lemma wired_with_flag self n action :
  wired self n action <->
  Extend (callback_flag action) (_curl_cmd self (action_id n action))
    ∈ with_flag (callback_flag action) (_notification_pieces self n).
Proof. unfold wired. by rewrite elem_of_with_flag at 1. Qed.

(** C5, as the code has it. The display command carries the callback
    address of click exactly when a click handler is bound or the
    notification is not ongoing, and likewise for delete; the address of a
    button action exactly when its handler is bound; and the address of a
    media action exactly when its handler is bound and the style tag is
    [media]. *)
Theorem callbacks_wired self n :
  (wired self n ACTION_CLICK <-> bound (action_click n) = true \/ ongoing n = false) /\
  (wired self n ACTION_DELETE <-> bound (action_delete n) = true \/ ongoing n = false) /\
  (wired self n ACTION_BUTTON1 <-> bound (action_button1 n) = true) /\
  (wired self n ACTION_BUTTON2 <-> bound (action_button2 n) = true) /\
  (wired self n ACTION_BUTTON3 <-> bound (action_button3 n) = true) /\
  (wired self n ACTION_MEDIA_PLAY <->
     n_type n = "media" /\ bound (action_media_play n) = true) /\
  (wired self n ACTION_MEDIA_PAUSE <->
     n_type n = "media" /\ bound (action_media_pause n) = true) /\
  (wired self n ACTION_MEDIA_NEXT <->
     n_type n = "media" /\ bound (action_media_next n) = true) /\
  (wired self n ACTION_MEDIA_PREVIOUS <->
     n_type n = "media" /\ bound (action_media_previous n) = true).
Proof.
  rewrite !wired_with_flag.
  unfold callback_flag, ACTION_CLICK, ACTION_DELETE,
    ACTION_MEDIA_PLAY, ACTION_MEDIA_PAUSE, ACTION_MEDIA_NEXT, ACTION_MEDIA_PREVIOUS,
    ACTION_BUTTON1, ACTION_BUTTON2, ACTION_BUTTON3.
  cbn [String.eqb Ascii.eqb Bool.eqb String.append].
  rewrite click_pieces, delete_pieces, button1_action_pieces, button2_action_pieces,
    button3_action_pieces, media_play_pieces, media_pause_pieces, media_next_pieces,
    media_previous_pieces.
  rewrite !in_when_self, !in_media_when, !orb_true_iff, !negb_true_iff.
  prop.
Qed.

(** X12. The flags of the display attributes. Every attribute other than
    the title is put on the command line once when it is set and not at all
    when it is unset; [--id] and [--content] are always put. *)
Lemma display_flags_once self n :
  with_flag "--id" (_notification_pieces self n) = [Extend "--id" (str (n_id n))] /\
  with_flag "--content" (_notification_pieces self n) = [Extend "--content" (content n)] /\
  with_flag "--group" (_notification_pieces self n) =
    when (nonempty (group n)) (Extend "--group" (group n)) /\
  with_flag "--priority" (_notification_pieces self n) =
    when (nonempty (priority n)) (Extend "--priority" (priority n)) /\
  with_flag "--type" (_notification_pieces self n) =
    when (nonempty (n_type n)) (Extend "--type" (n_type n)) /\
  with_flag "--alert-once" (_notification_pieces self n) =
    when (alert_once n) (Append "--alert-once") /\
  with_flag "--ongoing" (_notification_pieces self n) =
    when (ongoing n) (Append "--ongoing") /\
  with_flag "--sound" (_notification_pieces self n) =
    when (sound n) (Append "--sound") /\
  with_flag "--image-path" (_notification_pieces self n) =
    when (nonempty (image_path n)) (Extend "--image-path" (image_path n)) /\
  with_flag "--icon" (_notification_pieces self n) =
    when (nonempty (icon n)) (Extend "--icon" (icon n)) /\
  with_flag "--vibrate" (_notification_pieces self n) =
    when (nonempty (vibrate n)) (Extend "--vibrate" (vibrate n)).
Proof. repeat split; by_flag n. Qed.

(** The title is put twice: once after the content and once more as the
    last piece. *)
Lemma title_pieces self n :
  with_flag "--title" (_notification_pieces self n) =
  when (nonempty (title n)) (Extend "--title" (title n)) ++
  when (nonempty (title n)) (Extend "--title" (title n)).
Proof. by_flag n. Qed.

Lemma title_flag_count self n :
  count_flag "--title" (_notification_pieces self n) =
  if nonempty (title n) then 2%nat else 0%nat.
Proof.
  change (length (with_flag "--title" (_notification_pieces self n)) =
          if nonempty (title n) then 2%nat else 0%nat).
  rewrite title_pieces. by destruct (nonempty (title n)).
Qed.

(** The pieces are what the argument list says: reading the arguments of
    the display command back gives the pieces in order. *)
Lemma read_pieces_words (l : list piece) :
  Forall well_flagged l -> read_pieces (flat_map words l) = l.
Proof.
  induction 1 as [|p l Hp _ IH]; [reflexivity|].
  destruct p as [f|f v]; cbn in *.
  - by rewrite bool_decide_eq_true_2, IH.
  - by rewrite bool_decide_eq_false_2, IH.
Qed.

Lemma well_flagged_when b p : well_flagged p -> Forall well_flagged (when b p).
Proof. destruct b; cbn; by repeat constructor. Qed.

Lemma pieces_well_flagged self n : Forall well_flagged (_notification_pieces self n).
Proof.
  unfold _notification_pieces.
  destruct (String.eqb (n_type n) "media");
    repeat first
      [ apply Forall_nil_2
      | apply Forall_app_2
      | apply Forall_cons_2
      | apply well_flagged_when ];
    cbn; unfold switches; rewrite ?elem_of_cons, ?elem_of_nil;
    first [ by auto | by intros [|[|[|]]] ].
Qed.

(** X13. The argument list of the display command is the program
    followed by the words of the pieces, and reading it back, a switch
    alone and any other flag with the argument after it, gives the pieces
    again, whatever strings the attributes hold. *)
Lemma args_read_back self n :
  _notification_args self n =
    TERMUX_NOTIFICATION :: flat_map words (_notification_pieces self n) /\
  read_pieces (flat_map words (_notification_pieces self n)) = _notification_pieces self n.
Proof. split; [reflexivity|]. apply read_pieces_words, pieces_well_flagged. Qed.

(** The button setters: the clearing branch has no effect on the result. *)
Lemma set_button1_eq t cb n :
  set_button1 t cb n = assign_action_button1 cb (assign_button1 t n).
Proof. unfold set_button1. destruct n. by destruct (_ || _). Qed.

Lemma set_button2_eq t cb n :
  set_button2 t cb n = assign_action_button2 cb (assign_button2 t n).
Proof. unfold set_button2. destruct n. by destruct (_ || _). Qed.

Lemma set_button3_eq t cb n :
  set_button3 t cb n = assign_action_button3 cb (assign_button3 t n).
Proof. unfold set_button3. destruct n. by destruct (_ || _). Qed.

(** ** Strings: what [str], [split] and [shlex.quote] guarantee *)

(** [c in s]. *)
Fixpoint occurs (c : ascii) (s : string) : bool :=
  match s with
  | EmptyString => false
  | String d t => Ascii.eqb d c || occurs c t
  end.

(** A decimal digit or the minus sign. *)
Definition numeric (c : ascii) : bool :=
  bool_decide (c ∈ ["0"; "1"; "2"; "3"; "4"; "5"; "6"; "7"; "8"; "9"; "-"]%char).

Lemma occurs_app c s t : occurs c (s +:+ t) = occurs c s || occurs c t.
Proof. induction s as [|d s IH]; simpl; [done|]. by rewrite IH, orb_assoc. Qed.

Lemma occurs_numeric c d t :
  numeric c = false -> numeric d = true -> occurs c (String d t) = occurs c t.
Proof.
  intros Hc Hd. cbn [occurs].
  destruct (Ascii.eqb_spec d c) as [->|_]; [congruence|done].
Qed.

Lemma occurs_uint c d :
  numeric c = false -> occurs c (NilEmpty.string_of_uint d) = false.
Proof.
  intros Hc. induction d; cbn [NilEmpty.string_of_uint]; [done|..];
    by rewrite occurs_numeric.
Qed.

Lemma occurs_str c i : numeric c = false -> occurs c (str i) = false.
Proof.
  intros Hc. unfold str.
  assert (forall d, occurs c (NilZero.string_of_uint d) = false) as Hu.
  { intros d. destruct d; try by apply occurs_uint. by apply occurs_numeric. }
  destruct (Z.to_int i) as [d|d]; cbn [NilZero.string_of_int]; [apply Hu|].
  by rewrite occurs_numeric.
Qed.

Lemma str_inj i j : str i = str j -> i = j.
Proof.
  assert (forall z, NilZero.int_of_string (str z) = Some (Z.to_int z)) as Hr.
  { intros z. apply NilZero.isi; destruct z; cbn; try discriminate.
    all: intros [= H]; by apply DecimalPos.Unsigned.to_uint_nonnil in H. }
  intros H. apply (f_equal NilZero.int_of_string) in H.
  rewrite !Hr in H. injection H as H.
  apply (f_equal Z.of_int) in H. by rewrite !DecimalZ.of_to in H.
Qed.

Lemma split_no_sep sep s : occurs sep s = false -> split sep s = [s].
Proof.
  induction s as [|c s IH]; cbn [split occurs]; [done|].
  intros [Hc Hs]%orb_false_iff. rewrite Hc, (IH Hs). done.
Qed.

Lemma split_at_sep sep s t :
  occurs sep s = false -> split sep (s +:+ String sep t) = s :: split sep t.
Proof.
  induction s as [|c s IH]; simpl.
  - intros _. by rewrite Ascii.eqb_refl.
  - intros [Hc Hs]%orb_false_iff. rewrite Hc, (IH Hs). done.
Qed.

Lemma append_inj_l s t u : s +:+ t = s +:+ u -> t = u.
Proof. induction s as [|c s IH]; cbn; [done|]. intros [= H]. by apply IH. Qed.

Lemma append_inj_r s t c : s +:+ String c EmptyString = t +:+ String c EmptyString -> s = t.
Proof.
  revert t. induction s as [|d s IH]; intros [|e t]; cbn; try done.
  - intros [= _ H]. by destruct t.
  - intros [= _ H]. by destruct s.
  - intros [= -> H]. f_equal. by apply IH.
Qed.

(** Up to its first separator a string is determined by any way of writing
    it as a separator-free part, the separator and a rest. *)
Lemma cut_unique sep s1 s2 t1 t2 :
  occurs sep s1 = false -> occurs sep s2 = false ->
  s1 +:+ String sep t1 = s2 +:+ String sep t2 -> s1 = s2 /\ t1 = t2.
Proof.
  revert s2. induction s1 as [|c s1 IH]; intros [|d s2]; simpl.
  - intros _ _ [= H]. done.
  - intros _ [Hd _]%orb_false_iff [= H _]. rewrite <- H, Ascii.eqb_refl in Hd. done.
  - intros [Hc _]%orb_false_iff _ [= H _]. rewrite H, Ascii.eqb_refl in Hc. done.
  - intros [_ H1]%orb_false_iff [_ H2]%orb_false_iff [= -> H].
    destruct (IH s2 H1 H2 H) as [-> ->]. done.
Qed.

Lemma escape_squotes_inj s t : escape_squotes s = escape_squotes t -> s = t.
Proof.
  revert t. induction s as [|c s IH]; intros [|d t]; cbn; try done.
  - by destruct (Ascii.eqb d squote).
  - by destruct (Ascii.eqb c squote).
  - destruct (Ascii.eqb_spec c squote) as [->|Hc], (Ascii.eqb_spec d squote) as [->|Hd].
    + intros [= H]. f_equal. by apply IH.
    + intros [= H _]. by subst d.
    + intros [= H _]. by subst c.
    + intros [= -> H]. f_equal. by apply IH.
Qed.

Lemma all_safe_no_squote s : all_safe s = true -> occurs squote s = false.
Proof.
  induction s as [|c s IH]; cbn; [done|].
  intros [Hc Hs]%andb_true_iff. rewrite (IH Hs), orb_false_r.
  apply Ascii.eqb_neq. intros ->. discriminate Hc.
Qed.

(** [shlex.quote] never gives the same word for two strings. *)
Lemma shlex_quote_inj s t : shlex_quote s = shlex_quote t -> s = t.
Proof.
  assert (forall u v, all_safe u = true -> nonempty u = true ->
            u <> String squote v) as Hsafe.
  { intros u v Hu _ ->. apply all_safe_no_squote in Hu. by cbn in Hu. }
  unfold shlex_quote.
  destruct (nonempty s) eqn:Es, (nonempty t) eqn:Et; cbn [negb].
  - destruct (all_safe s) eqn:As, (all_safe t) eqn:At.
    + done.
    + intros H. by apply Hsafe in H.
    + intros H. symmetry in H. by apply Hsafe in H.
    + intros [= H]. apply append_inj_r in H. by apply escape_squotes_inj.
  - destruct t; [|done]. destruct (all_safe s) eqn:As.
    + intros H. by apply Hsafe in H.
    + intros [= H]. destruct s as [|c s]; [done|]. cbn in H.
      destruct (Ascii.eqb c squote); [discriminate H|].
      injection H as -> H. by destruct (escape_squotes s).
  - destruct s; [|done]. destruct (all_safe t) eqn:At.
    + intros H. symmetry in H. by apply Hsafe in H.
    + intros [= H]. destruct t as [|c t]; [done|]. cbn in H.
      destruct (Ascii.eqb c squote); [discriminate H|].
      injection H as <- H. by destruct (escape_squotes t).
  - by destruct s, t.
Qed.

(** ** The callback address *)

(** X2. The callback command encodes (id, action) injectively: two
    callback commands of one manager are equal only for the same id and the
    same action, whatever strings the actions are. *)
Theorem callback_address_injective self n n' action action' :
  _curl_cmd self (action_id n action) = _curl_cmd self (action_id n' action') <->
  n_id n = n_id n' /\ action = action'.
Proof.
  split; [|by intros [Hn ->]; unfold action_id; rewrite Hn].
  unfold _curl_cmd, shlex_join. cbn [map String.concat].
  intros H.
  repeat (apply append_inj_l in H).
  apply shlex_quote_inj, append_inj_l in H.
  unfold action_id in H.
  apply cut_unique in H as [Hi Ha]; try by apply occurs_str.
  split; [by apply str_inj|done].
Qed.

(** X1. The request that a callback command sends finds its way back: a
    request line whose path is the slash, the id as [str] prints it, a
    colon and one of the nine tokens makes [_callback_server] dispatch
    exactly that id and action and answer with the fixed response,
    provided [int] reads back what [str] printed. *)
Theorem callback_round_trip raw m v n action w :
  decode_utf8 raw = Some (m +:+ String " " (String "/" (action_id n action) +:+ String " " v)) ->
  int (str (n_id n)) = Some (n_id n) ->
  occurs " " m = false -> occurs " " v = false -> action ∈ tokens ->
  fst (_callback_server raw w) = Returned RESPONSE /\
  snd (_callback_server raw w) = snd (_on_action_callback (n_id n) action w).
Proof.
  intros Hd Hi Hm Hv Ha.
  assert (occurs " " action = false /\ occurs ":" action = false) as [Ha1 Ha2].
  { unfold tokens in Ha. rewrite !elem_of_cons, elem_of_nil in Ha.
    repeat destruct Ha as [->|Ha]; try done. }
  unfold _callback_server. rewrite Hd.
  rewrite (split_at_sep " " m) by done.
  change (String "/" (action_id n action) +:+ String " " v)
    with (String "/" (action_id n action +:+ String " " v)).
  assert (occurs " " (String "/" (action_id n action)) = false) as Hp.
  { unfold action_id. cbn. rewrite !occurs_app, Ha1. cbn.
    by rewrite occurs_str. }
  change (String "/" (action_id n action +:+ String " " v))
    with (String "/" (action_id n action) +:+ String " " v).
  rewrite (split_at_sep " " _ v Hp), (split_no_sep " " v Hv).
  unfold action_id.
  change (String "/" (str (n_id n) +:+ ":" +:+ action))
    with (String "/" (str (n_id n)) +:+ String ":" action).
  rewrite (split_at_sep ":"), (split_no_sep ":" action Ha2).
  - cbn [tail_str]. rewrite Hi.
    unfold mbind, M_bind, bind. by rewrite dispatch_eq.
  - cbn. by rewrite occurs_str.
Qed.

(** ** More on the registry *)

Lemma live_sent_discard a n w :
  objs w !! a = Some n -> live (sent a n w) = live (set_discard a w) ++ [(a, n)].
Proof.
  intros Hn. rewrite (live_sent a n w Hn), live_set_discard.
  unfold n_id_at. by rewrite Hn.
Qed.

Lemma live_ids_sent a n w :
  objs w !! a = Some n ->
  live_ids (sent a n w) = filter (fun j => j <> n_id n) (live_ids w) ++ [n_id n].
Proof.
  intros Hn. unfold live_ids at 1. rewrite (live_sent_discard a n w Hn), fmap_app.
  change ((fun p : addr * Notification => n_id (snd p)) <$> live (set_discard a w))
    with (live_ids (set_discard a w)).
  rewrite (live_ids_set_discard a w (n_id n)); [done|].
  unfold n_id_at. by rewrite Hn.
Qed.

(** X3. Sending an object returns normally, makes its id live, leaves
    every other id as live or not live as it was, issues exactly the display
    command of the object, and changes neither the store, the task queue,
    the id counter nor the server. *)
Theorem send_keeps_the_rest a n w :
  objs w !! a = Some n ->
  let r := send_notification a w in
  fst r = Returned tt /\
  n_id n ∈ live_ids (snd r) /\
  (forall i, i <> n_id n -> (i ∈ live_ids (snd r) <-> i ∈ live_ids w)) /\
  objs (snd r) = objs w /\
  ran (snd r) = ran w ++ [_notification_cmd (nm w) n] /\
  tasks (snd r) = tasks w /\
  _nid (nm (snd r)) = _nid (nm w) /\
  server (nm (snd r)) = server (nm w).
Proof.
  intros Hn r. subst r. rewrite send_eq, Hn. cbn [fst snd].
  rewrite (live_ids_sent a n w Hn).
  split; [done|]. split; [|split; [|done]].
  - rewrite elem_of_app, list_elem_of_singleton. by right.
  - intros i Hi. rewrite elem_of_app, list_elem_of_filter, list_elem_of_singleton. prop.
Qed.

(** X4. Removing an object returns normally, takes exactly its id out of
    the live set and issues the removal command for that id; removing it
    again, when it is no longer live, issues the command once more and
    leaves the set as it is. *)
Theorem remove_is_exact_and_repeatable a n w :
  objs w !! a = Some n ->
  let r := remove_notification a w in
  let r2 := remove_notification a (snd r) in
  fst r = Returned tt /\
  live_ids (snd r) = filter (fun j => j <> n_id n) (live_ids w) /\
  ran (snd r) = ran w ++ [shlex_join [TERMUX_NOTIFICATION_REMOVE; str (n_id n)]] /\
  fst r2 = Returned tt /\
  notification_set (nm (snd r2)) = notification_set (nm (snd r)) /\
  ran (snd r2) = ran (snd r) ++ [shlex_join [TERMUX_NOTIFICATION_REMOVE; str (n_id n)]].
Proof.
  intros Hn r r2. subst r r2. rewrite remove_eq, Hn. cbn [fst snd].
  rewrite remove_eq. cbn [objs]. rewrite Hn. cbn [fst snd].
  assert (Ha : n_id_at w a = Some (n_id n)) by (unfold n_id_at; by rewrite Hn).
  repeat split.
  - change (live_ids (set_discard a w) = filter (fun j => j <> n_id n) (live_ids w)).
    by apply live_ids_set_discard.
  - cbn. apply filter_id. intros b Hb.
    by apply list_elem_of_filter in Hb as [Hb _].
Qed.

(** X5. After an object was removed, a dispatch for its id, whatever the
    action, changes nothing and queues nothing. *)
Theorem dispatch_after_remove_is_noop a n action w :
  objs w !! a = Some n ->
  let w' := snd (remove_notification a w) in
  _on_action_callback (n_id n) action w' = (Returned tt, w').
Proof.
  intros Hn w'. rewrite dispatch_eq. f_equal.
  assert (n_id n ∉ live_ids w') as Hout.
  { subst w'. rewrite remove_eq, Hn. cbn [snd].
    change (n_id n ∉ live_ids (set_discard a w)).
    rewrite (live_ids_set_discard a w (n_id n)), list_elem_of_filter; [prop|].
    unfold n_id_at. by rewrite Hn. }
  apply find_live_None in Hout. unfold dispatched. by rewrite Hout.
Qed.

(** X6. A terminal action is served once: after a [click] or [delete]
    dispatch for an id, the same dispatch again changes nothing and queues
    nothing. *)
Theorem terminal_dispatch_once nid action w :
  action = ACTION_CLICK \/ action = ACTION_DELETE ->
  let w' := snd (_on_action_callback nid action w) in
  _on_action_callback nid action w' = (Returned tt, w').
Proof.
  intros Ht w'. apply terminal_tokens in Ht.
  rewrite dispatch_eq. f_equal.
  assert (nid ∉ live_ids w') as Hout.
  { subst w'. rewrite dispatch_eq. cbn [snd].
    rewrite dispatched_live_ids, Ht, list_elem_of_filter. prop. }
  apply find_live_None in Hout. unfold dispatched. by rewrite Hout.
Qed.

(** X7. A dispatch never touches the store, the commands issued, the id
    counter or the server, and never adds to the live set; it queues either
    nothing or one coroutine, and that one is bound for the action on a live
    record carrying the id. In particular a terminal action takes the
    record out of the set without any removal command being issued. *)
Theorem dispatch_footprint nid action w :
  let w' := snd (_on_action_callback nid action w) in
  objs w' = objs w /\
  ran w' = ran w /\
  _nid (nm w') = _nid (nm w) /\
  server (nm w') = server (nm w) /\
  (forall i, i ∈ live_ids w' -> i ∈ live_ids w) /\
  (tasks w' = tasks w \/
   exists a n h, (a, n) ∈ live w /\ n_id n = nid /\ binding action n = Some h /\
                 tasks w' = tasks w ++ [h]).
Proof.
  intros w'. subst w'. rewrite dispatch_eq. cbn [snd].
  assert (forall i, i ∈ live_ids (dispatched nid action w) -> i ∈ live_ids w) as Hsub.
  { intros i. rewrite dispatched_live_ids. destruct (terminal action); [|done].
    rewrite list_elem_of_filter. prop. }
  unfold dispatched in *.
  destruct (find _ (live w)) as [[a n]|] eqn:E; [|by auto 10].
  apply find_live_Some in E as [Hin Hid].
  destruct (binding action n) as [h|] eqn:Eb, (terminal action);
    cbn; repeat split; auto; right; by exists a, n, h.
Qed.

Lemma NoDup_fmap_elem_inj {A B} (f : A -> B) (l : list A) x y :
  NoDup (f <$> l) -> x ∈ l -> y ∈ l -> f x = f y -> x = y.
Proof.
  induction l as [|z l IH]; [by intros _ ?%not_elem_of_nil|].
  rewrite fmap_cons, NoDup_cons.
  intros [Hz Hl] [->|Hx]%elem_of_cons [->|Hy]%elem_of_cons Hf; [done| | |by apply IH].
  - exfalso. apply Hz. rewrite Hf. by apply list_elem_of_fmap_2.
  - exfalso. apply Hz. rewrite <- Hf. by apply list_elem_of_fmap_2.
Qed.

Lemma find_unique a n w :
  wf w -> (a, n) ∈ live w ->
  find (fun p => Z.eqb (n_id (snd p)) (n_id n)) (live w) = Some (a, n).
Proof.
  intros Hw Hin. destruct (find _ (live w)) as [[b m]|] eqn:E.
  - apply find_live_Some in E as [Hb Hid]. f_equal.
    by apply (NoDup_fmap_elem_inj (fun p => n_id (snd p)) (live w));
      [apply (wf_NoDup_live_ids w Hw)|..].
  - apply find_live_None in E. exfalso. apply E, live_ids_elem. eauto.
Qed.

(** X8. In every state a program can reach, a dispatch for a live record
    finds that record, and an action that is not terminal can be repeated:
    each dispatch queues the bound handler again and the record stays
    live. *)
Theorem non_terminal_dispatch_repeats cs path store a n action h :
  let w := run cs (init path store) in
  (a, n) ∈ live w -> binding action n = Some h ->
  action <> ACTION_CLICK -> action <> ACTION_DELETE ->
  let w1 := snd (_on_action_callback (n_id n) action w) in
  let w2 := snd (_on_action_callback (n_id n) action w1) in
  tasks w1 = tasks w ++ [h] /\ tasks w2 = tasks w ++ [h; h] /\
  live w2 = live w.
Proof.
  intros w Hin Hb H1 H2 w1 w2.
  assert (Hw : wf w) by apply wf_run, wf_init.
  assert (Ht : terminal action = false).
  { destruct (terminal action) eqn:Ht; [|done]. apply terminal_tokens in Ht. prop. }
  assert (forall v, live v = live w -> tasks (dispatched (n_id n) action v) = tasks v ++ [h] /\
                    live (dispatched (n_id n) action v) = live w) as Hstep.
  { intros v Hv. unfold dispatched. rewrite Hv, (find_unique a n w Hw Hin), Hb, Ht. done. }
  subst w1 w2. rewrite !dispatch_eq. cbn [snd].
  destruct (Hstep w eq_refl) as [Ht1 Hl1].
  destruct (Hstep _ Hl1) as [Ht2 Hl2].
  rewrite Ht2, Ht1, <- app_assoc. done.
Qed.

(** ** More on the listener's lifecycle *)

(** The flags of a server stay consistent: a serving server holds its
    sockets. *)
Definition server_ok (w : world) : Prop :=
  match server (nm w) with
  | Some s => serving s = true -> sockets_held s = true
  | None => True
  end.

Lemma server_exec c w :
  server (nm (exec c w)) =
  match c with
  | Start => Some (mkServer true true)
  | Stop => Server_close <$> server (nm w)
  | Exit => if is_serving (nm w) then Server_close <$> server (nm w) else server (nm w)
  | _ => server (nm w)
  end.
Proof.
  destruct c; cbn [exec]; try reflexivity.
  - rewrite send_eq. by destruct (objs w !! a).
  - rewrite remove_eq. by destruct (objs w !! a).
  - by rewrite remove_all_eq.
  - rewrite stop_eq. by destruct (server (nm w)) eqn:E; cbn; rewrite ?E.
  - destruct (connection_cases raw w) as [->|(nid & act & ->)]; [done|].
    unfold dispatched. destruct (find _ (live w)) as [[a n]|]; [|done].
    by destruct (binding act n), (terminal act).
  - rewrite exit_eq. cbn. by destruct (is_serving (nm w)).
Qed.

Lemma server_ok_close s :
  (serving (Server_close s) = true -> sockets_held (Server_close s) = true) <->
  (serving s = true -> sockets_held s = true).
Proof. unfold Server_close. destruct s as [[] []]; cbn; prop. Qed.

Lemma server_ok_exec c w : server_ok w -> server_ok (exec c w).
Proof.
  unfold server_ok. rewrite server_exec.
  destruct c; try done.
  - destruct (server (nm w)); cbn; [by rewrite server_ok_close|done].
  - destruct (is_serving (nm w)); [|done].
    destruct (server (nm w)); cbn; [by rewrite server_ok_close|done].
Qed.

Lemma server_ok_run cs w : server_ok w -> server_ok (run cs w).
Proof.
  revert w. induction cs as [|c cs IH]; intros w Hw; [done|].
  cbn. apply IH. by apply server_ok_exec.
Qed.


(** X9. Whatever a program did before, the exit hook returns normally,
    leaves the server not serving, and issues one removal command per live
    notification after the commands already issued; it does not empty the
    set. *)
Theorem exit_hook_cleans_up cs path store :
  let w := run cs (init path store) in
  let r := _on_exit_task w in
  fst r = Returned tt /\
  is_serving (nm (snd r)) = false /\
  ran (snd r) =
    ran w ++ map (fun p => shlex_join [TERMUX_NOTIFICATION_REMOVE; str (n_id (snd p))]) (live w) /\
  notification_set (nm (snd r)) = notification_set (nm w) /\
  tasks (snd r) = tasks w.
Proof.
  intros w r. subst r. rewrite exit_eq. cbn [fst snd nm ran tasks].
  assert (Hok : server_ok w) by (apply server_ok_run; exact I).
  repeat split.
  - unfold server_ok in Hok. unfold is_serving in *.
    destruct (server (nm w)) as [[[] []]|] eqn:Es; cbn; rewrite ?Es; cbn; try done.
    by specialize (Hok eq_refl).
  - by destruct (is_serving (nm w)).
Qed.


(** ** More on the setters and the display command *)

Lemma live_ids_omap w : live_ids w = omap (n_id_at w) (notification_set (nm w)).
Proof.
  unfold live_ids, live, n_id_at.
  induction (notification_set (nm w)) as [|a l IH]; [reflexivity|].
  cbn. destruct (objs w !! a); cbn; by rewrite IH.
Qed.

(** X11. A setter changes bindings and button labels only: the id and
    the twelve display attributes of the object stay. So a setter called on
    any object, live or not, leaves the live ids as they are, and the set,
    holding the object itself, shows the object as the setter left it. *)
Theorem setters_keep_identity a s w :
  (forall n, let n' := apply_setter s n in
     n_id n' = n_id n /\ content n' = content n /\ title n' = title n /\
     group n' = group n /\ priority n' = priority n /\ n_type n' = n_type n /\
     alert_once n' = alert_once n /\ ongoing n' = ongoing n /\ sound n' = sound n /\
     image_path n' = image_path n /\ icon n' = icon n /\ vibrate n' = vibrate n) /\
  live_ids (exec (Mutate a s) w) = live_ids w /\
  (forall n, (a, n) ∈ live w -> (a, apply_setter s n) ∈ live (exec (Mutate a s) w)).
Proof.
  split; [|split].
  - intros n. destruct s, n; cbn; try done;
      unfold set_button1, set_button2, set_button3; cbn; by repeat case_match.
  - rewrite !live_ids_omap. cbn [exec nm].
    induction (notification_set (nm w)) as [|b l IH]; [reflexivity|].
    cbn [omap list_omap]. rewrite IH. unfold n_id_at at 1 3. cbn [objs].
    by rewrite n_id_at_alter.
  - intros n [Ha Hn]%live_elem. apply live_elem. split; [done|].
    cbn [exec objs]. rewrite list_lookup_alter_eq.
    exact (f_equal (fmap (apply_setter s)) Hn).
Qed.

(** X14. A button label is put on the command line exactly when the
    label is not empty, whether or not a handler is bound for the button. *)
Theorem button_labels_follow_label self n :
  with_flag "--button1" (_notification_pieces self n) =
    when (nonempty (button1 n)) (Extend "--button1" (button1 n)) /\
  with_flag "--button2" (_notification_pieces self n) =
    when (nonempty (button2 n)) (Extend "--button2" (button2 n)) /\
  with_flag "--button3" (_notification_pieces self n) =
    when (nonempty (button3 n)) (Extend "--button3" (button3 n)).
Proof. repeat split; by_flag n. Qed.

End Manager.

(** ** Concrete runs *)

Local Abbreviation run0 :=
  (run "termux-notification" "termux-notification-remove" "curl" decode_ascii int_decimal).

Example builtins_run :
  str 5 = "5" /\ str (-12) = "-12" /\ str 0 = "0" /\
  split " " "GET /1:click HTTP/1.1" = ["GET"; "/1:click"; "HTTP/1.1"] /\
  split " " "a  b" = ["a"; ""; "b"] /\ split ":" "" = [""] /\
  shlex_quote "a@b%c+d=e:f,g.h/i-j_k09AZ" = "a@b%c+d=e:f,g.h/i-j_k09AZ" /\
  shlex_quote "a b" = "'a b'" /\ shlex_quote "a~b" = "'a~b'" /\ shlex_quote "" = "''" /\
  shlex_quote "it's" = "'it'" +:+ String dquote "'" +:+ String dquote "'s'" /\
  shlex_join ["termux-notification-remove"; str (-3)] = "termux-notification-remove -3".
Proof. vm_compute. repeat split; reflexivity. Qed.

(** The end-to-end run of the specification: two [button1] requests queue
    the handler twice and leave the notification live; a [click] request
    removes it although no click handler is bound. *)
Example end_to_end :
  let w := run0 program8 (init sock []) in
  tasks w = [7%nat; 7%nat] /\ notification_set (nm w) = [0%nat] /\
  ran w = ["termux-notification --id 1 --content hi --action 'curl -GET --unix-socket /tmp/cb.sock http://localhost/1:click' --on-delete 'curl -GET --unix-socket /tmp/cb.sock http://localhost/1:delete' --button1 OK --button1-action 'curl -GET --unix-socket /tmp/cb.sock http://localhost/1:button1'"] /\
  notification_set (nm (run0 [Connection "GET /1:click HTTP/1.1"] w)) = [].
Proof. vm_compute. repeat split; reflexivity. Qed.

(** The set holds references: a handler bound on the object after it was
    sent is the one a later dispatch finds. *)
Example dispatch_reads_the_object_now :
  tasks (run0 [New 1 "hi" "" "" "" "" false true false "" "" ""; Send 0%nat;
               Mutate 0%nat (Set_click_action (Some 9%nat));
               Start; Connection "GET /1:click HTTP/1.1"] (init sock [])) = [9%nat].
Proof. vm_compute. reflexivity. Qed.

Lemma terminal_action_removal_witness :
  let r := _on_action_callback 1 ACTION_CLICK one_live in
  fst r = Returned tt /\
  (ACTION_CLICK = ACTION_CLICK \/ ACTION_CLICK = ACTION_DELETE ->
     (1 ∉ live_ids (snd r)) /\
     forall i, i <> 1 -> (i ∈ live_ids (snd r) <-> i ∈ live_ids one_live)) /\
  (ACTION_CLICK <> ACTION_CLICK -> ACTION_CLICK <> ACTION_DELETE ->
     notification_set (nm (snd r)) = notification_set (nm one_live)).
Proof.
  apply (terminal_action_removal 1 ACTION_CLICK one_live).
  vm_compute. left.
Defined.

Lemma replace_semantics_witness :
  let w := run0 [Send 0%nat] (init sock two_same_id) in
  let w2 := snd (send_notification "termux-notification" "curl" 1%nat w) in
  NoDup (live_ids w) /\
  NoDup (live_ids w2) /\
  filter (fun p => n_id (snd p) = 5) (live w2) =
    [(1%nat, set_click_action (Some 22%nat) (plain 5))] /\
  tasks (snd (_on_action_callback 5 "click" w2)) = tasks w2 ++ [22%nat].
Proof.
  apply (replace_semantics "termux-notification" "termux-notification-remove" "curl"
           decode_ascii int_decimal [Send 0%nat] sock two_same_id 1%nat
           (set_click_action (Some 22%nat) (plain 5)) "click").
  reflexivity.
Defined.

Lemma unknown_routing_is_noop_witness :
  let r := _on_action_callback 1 "button2" one_live in
  fst r = Returned tt /\
  tasks (snd r) = tasks one_live /\
  (1 ∉ live_ids one_live -> snd r = one_live).
Proof.
  apply (unknown_routing_is_noop 1 "button2" one_live).
  intros a n Hin _. vm_compute in Hin.
  apply list_elem_of_singleton in Hin. by inversion Hin.
Defined.

Lemma remove_all_keeps_live_set_witness :
  let r := remove_all_notifications "termux-notification-remove" one_live in
  fst r = Returned tt /\
  ran (snd r) = ran one_live ++
    map (fun p => shlex_join ["termux-notification-remove"; str (n_id (snd p))])
        (live one_live) /\
  notification_set (nm (snd r)) = notification_set (nm one_live) /\
  objs (snd r) = objs one_live /\
  live (snd r) = live one_live /\
  1 ∉ live_ids (snd (remove_notification "termux-notification-remove" 0%nat one_live)).
Proof.
  apply (remove_all_keeps_live_set "termux-notification-remove" one_live 0%nat
           (set_button1 "OK" (Some 7%nat) (plain 1))).
  reflexivity.
Defined.

Lemma garbage_is_malformed : malformed decode_ascii int_decimal "garbage".
Proof. apply Bad_line with "garbage"; [reflexivity|]. vm_compute. discriminate. Qed.

Lemma malformed_request_dropped_witness :
  snd (_callback_server decode_ascii int_decimal "garbage" one_live) = one_live /\
  connection decode_ascii int_decimal "garbage" one_live = one_live /\
  tasks (connection decode_ascii int_decimal "garbage" one_live) = tasks one_live /\
  is_serving (nm (connection decode_ascii int_decimal "garbage" one_live)) =
    is_serving (nm one_live) /\
  accept_loop decode_ascii int_decimal ["garbage"; "GET /1:button1 HTTP/1.1"] one_live =
    accept_loop decode_ascii int_decimal ["GET /1:button1 HTTP/1.1"] one_live.
Proof.
  apply (malformed_request_dropped decode_ascii int_decimal "garbage" one_live
           ["GET /1:button1 HTTP/1.1"]).
  exact garbage_is_malformed.
Defined.

(** Requests that the listener drops, one of each kind, and one it serves. *)
Example malformed_kinds :
  malformed decode_ascii int_decimal "" /\
  malformed decode_ascii int_decimal "GET /1 HTTP/1.1" /\
  malformed decode_ascii int_decimal "GET /x:click HTTP/1.1" /\
  malformed decode_ascii int_decimal "GET /1:swipe HTTP/1.1" /\
  tasks (connection decode_ascii int_decimal "GET /1:button1 HTTP/1.1" one_live) = [7%nat].
Proof.
  repeat split.
  - apply Bad_line with ""; [reflexivity|]. vm_compute. discriminate.
  - apply Bad_path with "GET /1 HTTP/1.1" "GET" "/1" "HTTP/1.1"; try reflexivity.
    vm_compute. discriminate.
  - by apply Bad_id with "GET /x:click HTTP/1.1" "GET" "/x:click" "HTTP/1.1" "/x" "click".
  - apply Unknown_action with "GET /1:swipe HTTP/1.1" "GET" "/1:swipe" "HTTP/1.1" "/1" "swipe";
      try reflexivity.
    unfold tokens. rewrite !elem_of_cons, elem_of_nil.
    intros H. repeat destruct H as [H|H]; try discriminate H. exact H.
Qed.

(** C5, as the specification words it, fails: a media handler bound on a
    notification whose style tag is not [media] gets no callback address
    on the display command. *)
Lemma bound_media_action_not_wired :
  let n := set_media_play_action (Some 3%nat) (plain 1) in
  bound (binding ACTION_MEDIA_PLAY n) = true /\
  ~ wired "curl" (mkManager sock None [] 0) n ACTION_MEDIA_PLAY.
Proof.
  split; [reflexivity|].
  rewrite wired_with_flag.
  change (callback_flag ACTION_MEDIA_PLAY) with "--media-play".
  rewrite media_play_pieces. cbn. apply not_elem_of_nil.
Qed.

(** C4. The button setters do not couple label and handler: a label given
    without a handler stays, and so does a handler given with an empty
    label; clearing a slot that was set does not give back the state in
    which it was never set. *)
Theorem button_setters_do_not_clear :
  button1 (set_button1 "OK" None (plain 1)) = "OK" /\
  action_button1 (set_button1 "" (Some 7%nat) (plain 1)) = Some 7%nat /\
  button2 (set_button2 "OK" None (plain 1)) = "OK" /\
  action_button2 (set_button2 "" (Some 7%nat) (plain 1)) = Some 7%nat /\
  button3 (set_button3 "OK" None (plain 1)) = "OK" /\
  action_button3 (set_button3 "" (Some 7%nat) (plain 1)) = Some 7%nat /\
  set_button1 "" (Some 7%nat) (set_button1 "OK" (Some 7%nat) (plain 1)) <> plain 1.
Proof. repeat split; try reflexivity. discriminate. Qed.

(** C6. On a manager whose server was never started, which is not
    serving, [stop_callback_server] raises [AttributeError]. *)
Theorem stop_before_start_raises :
  is_serving (nm (init sock [])) = false /\
  fst (stop_callback_server (init sock [])) = Raised AttributeError.
Proof. split; reflexivity. Qed.

(** The other two calls of the lifecycle: stopping twice and starting
    twice both return and leave the server stopped and serving. *)
Example stop_twice_start_twice :
  let w := run0 [Start; Stop] (init sock []) in
  fst (stop_callback_server w) = Returned tt /\
  is_serving (nm (snd (stop_callback_server w))) = false /\
  fst (start_callback_server (run0 [Start] (init sock []))) = Returned tt /\
  is_serving (nm (run0 [Start; Start] (init sock []))) = true.
Proof. vm_compute. repeat split; reflexivity. Qed.

(** C9. A notification with a title gets the [--title] flag twice on its
    display command. *)
Theorem title_flag_is_doubled :
  let n := new_Notification 1 "hi" "T" "" "" "" false false false "" "" "" in
  count_flag "--title" (_notification_pieces "curl" (mkManager sock None [] 0) n) = 2%nat /\
  _notification_cmd "termux-notification" "curl" (mkManager sock None [] 0) n =
    "termux-notification --id 1 --content hi --title T --action 'curl -GET --unix-socket /tmp/cb.sock http://localhost/1:click' --on-delete 'curl -GET --unix-socket /tmp/cb.sock http://localhost/1:delete' --title T".
Proof. split; vm_compute; reflexivity. Qed.

(** ** Witnesses for the registry, the listener and the callback address *)

Lemma callback_round_trip_witness :
  fst (_callback_server decode_ascii int_decimal "GET /1:button1 HTTP/1.1" one_live) =
    Returned RESPONSE /\
  snd (_callback_server decode_ascii int_decimal "GET /1:button1 HTTP/1.1" one_live) =
    snd (_on_action_callback 1 "button1" one_live).
Proof.
  apply (callback_round_trip decode_ascii int_decimal "GET /1:button1 HTTP/1.1"
           "GET" "HTTP/1.1" (set_button1 "OK" (Some 7%nat) (plain 1)) "button1" one_live);
    try reflexivity.
  unfold tokens. by repeat constructor.
Defined.

Lemma send_keeps_the_rest_witness :
  let r := send_notification "termux-notification" "curl" 1%nat
             (mkWorld [plain 1; plain 2] (mkManager sock None [0%nat] 0) [] []) in
  fst r = Returned tt /\
  2 ∈ live_ids (snd r) /\
  (forall i, i <> 2 ->
     (i ∈ live_ids (snd r) <->
      i ∈ live_ids (mkWorld [plain 1; plain 2] (mkManager sock None [0%nat] 0) [] []))) /\
  objs (snd r) = [plain 1; plain 2] /\
  ran (snd r) = [] ++ [_notification_cmd "termux-notification" "curl"
                         (mkManager sock None [0%nat] 0) (plain 2)] /\
  tasks (snd r) = [] /\
  _nid (nm (snd r)) = 0 /\
  server (nm (snd r)) = None.
Proof.
  apply (send_keeps_the_rest "termux-notification" "curl" 1%nat (plain 2)
           (mkWorld [plain 1; plain 2] (mkManager sock None [0%nat] 0) [] [])).
  reflexivity.
Defined.

Lemma remove_is_exact_and_repeatable_witness :
  let r := remove_notification "termux-notification-remove" 0%nat one_live in
  let r2 := remove_notification "termux-notification-remove" 0%nat (snd r) in
  fst r = Returned tt /\
  live_ids (snd r) = filter (fun j => j <> 1) (live_ids one_live) /\
  ran (snd r) = ran one_live ++ [shlex_join ["termux-notification-remove"; str 1]] /\
  fst r2 = Returned tt /\
  notification_set (nm (snd r2)) = notification_set (nm (snd r)) /\
  ran (snd r2) = ran (snd r) ++ [shlex_join ["termux-notification-remove"; str 1]].
Proof.
  apply (remove_is_exact_and_repeatable "termux-notification-remove" 0%nat
           (set_button1 "OK" (Some 7%nat) (plain 1)) one_live).
  reflexivity.
Defined.

Lemma dispatch_after_remove_is_noop_witness :
  let w' := snd (remove_notification "termux-notification-remove" 0%nat one_live) in
  _on_action_callback 1 "button1" w' = (Returned tt, w').
Proof.
  apply (dispatch_after_remove_is_noop "termux-notification-remove" 0%nat
           (set_button1 "OK" (Some 7%nat) (plain 1)) "button1" one_live).
  reflexivity.
Defined.

Lemma terminal_dispatch_once_witness :
  let w' := snd (_on_action_callback 1 ACTION_DELETE one_live) in
  _on_action_callback 1 ACTION_DELETE w' = (Returned tt, w').
Proof.
  apply (terminal_dispatch_once 1 ACTION_DELETE one_live). by right.
Defined.

Lemma non_terminal_dispatch_repeats_witness :
  let w := run0 program8 (init sock []) in
  let w1 := snd (_on_action_callback 1 "button1" w) in
  let w2 := snd (_on_action_callback 1 "button1" w1) in
  tasks w1 = tasks w ++ [7%nat] /\ tasks w2 = tasks w ++ [7%nat; 7%nat] /\
  live w2 = live w.
Proof.
  apply (non_terminal_dispatch_repeats "termux-notification" "termux-notification-remove"
           "curl" decode_ascii int_decimal program8 sock [] 0%nat
           (set_button1 "OK" (Some 7%nat) (plain 1)) "button1" 7%nat);
    try discriminate; try reflexivity.
  vm_compute. left.
Defined.

(** ** The module's environment *)

Section Environment.

(** [os.environ], as the map that [os.environ.get] reads. *)
Variable environ : string -> option string.

(** [os.environ.get(key, default)]. *)
Definition environ_get (key default : string) : string :=
  match environ key with
  | Some v => v
  | None => default
  end.

Definition _is_in_termux : bool :=
  String.prefix "/data/data/com.termux" (environ_get "TMPDIR" "/root").

Definition DEFAULT_TMPDIR := "/data/data/com.termux/files/usr/tmp".
Definition DEFAULT_PATH := "/data/data/com.termux/files/usr/bin".

Definition TMPDIR : string :=
  if _is_in_termux then environ_get "TMPDIR" DEFAULT_TMPDIR else DEFAULT_TMPDIR.

Definition PATH : string :=
  if _is_in_termux then environ_get "PATH" DEFAULT_PATH else DEFAULT_PATH.

(** X15. Whatever the environment holds, the directory in which the
    manager puts its socket lies under the Termux data directory, and the
    search path for the external programs is the default one unless the
    environment's [TMPDIR] lies under the Termux data directory and the
    environment has a [PATH]. *)
Theorem tmpdir_is_under_termux :
  String.prefix "/data/data/com.termux" TMPDIR = true /\
  (PATH = DEFAULT_PATH \/
   exists t, environ "TMPDIR" = Some t /\
             String.prefix "/data/data/com.termux" t = true /\
             environ "PATH" = Some PATH).
Proof.
  unfold TMPDIR, PATH, _is_in_termux, environ_get.
  destruct (environ "TMPDIR") as [t|] eqn:Et.
  - destruct (String.prefix "/data/data/com.termux" t) eqn:Ep.
    + split; [done|]. destruct (environ "PATH") as [p|]; [|by left].
      right. by exists t.
    + split; [reflexivity|by left].
  - split; [reflexivity|by left].
Qed.

End Environment.

(** ** Looking a program up on the search path *)

Section SearchPath.

(** [os.listdir] ([None] when it raises [OSError]: no such directory, not
    a directory, no permission), [os.path.isfile] and [os.path.join]. *)
Variable listdir : string -> option (list string).
Variable isfile : string -> bool.
Variable join : string -> string -> string.

(** What [_find_in_path] does: return a path, return [None], or let the
    [OSError] of [os.listdir] on a directory through. *)
Inductive lookup :=
| Path (f_path : string)
| NoPath
| OSError (p : string).

(** The inner loop, over the entries of the directory [p]. *)
Fixpoint scan (file p : string) (entries : list string) : option string :=
  match entries with
  | [] => None
  | f :: fs =>
      if negb (String.eqb f file) then scan file p fs
      else if isfile (join p file) then Some (join p file)
      else scan file p fs
  end.

(** The outer loop, over the directories of the search path. *)
Fixpoint search (file : string) (paths : list string) : lookup :=
  match paths with
  | [] => NoPath
  | p :: ps =>
      match listdir p with
      | None => OSError p
      | Some entries =>
          match scan file p entries with
          | Some f_path => Path f_path
          | None => search file ps
          end
      end
  end.

(** [_find_in_path(file, path)] with a [path] given, as every call in the
    module does; [os.pathsep] is the colon. *)
Definition _find_in_path (file path : string) : lookup :=
  search file (split ":" path).

(** The directory [p] can be listed and does not hold [file] as a regular
    file. *)
Definition misses (file p : string) : Prop :=
  exists entries, listdir p = Some entries /\
                  (file ∉ entries \/ isfile (join p file) = false).

Lemma scan_spec file p entries :
  scan file p entries =
  if bool_decide (file ∈ entries) && isfile (join p file) then Some (join p file) else None.
Proof.
  induction entries as [|f fs IH]; [reflexivity|].
  cbn [scan]. destruct (String.eqb_spec f file) as [->|Hne]; cbn [negb].
  - rewrite bool_decide_eq_true_2 by left. cbn [andb].
    destruct (isfile (join p file)); [done|]. rewrite IH. by rewrite andb_false_r.
  - rewrite IH, (bool_decide_ext (file ∈ f :: fs) (file ∈ fs)); [done|].
    rewrite elem_of_cons. split; [by intros [<-|]|by right].
Qed.

Lemma scan_None file p entries :
  scan file p entries = None <-> file ∉ entries \/ isfile (join p file) = false.
Proof.
  rewrite scan_spec.
  destruct (isfile (join p file)), (decide (file ∈ entries)) as [Hin|Hout].
  - rewrite bool_decide_eq_true_2 by done. cbn. split; [done|by intros [?|?]].
  - rewrite bool_decide_eq_false_2 by done. cbn. split; [by left|done].
  - rewrite andb_false_r. split; [by right|done].
  - rewrite andb_false_r. split; [by right|done].
Qed.

Lemma search_misses file before rest :
  Forall (misses file) before -> search file (before ++ rest) = search file rest.
Proof.
  induction 1 as [|d ds (es & Hl & Hm) _ IH]; [reflexivity|].
  cbn [app search]. rewrite Hl. apply scan_None in Hm. by rewrite Hm.
Qed.

(** X16. A path returned by [_find_in_path] is the join of a directory of
    the search path and the file name; that directory lists the name and
    the path is a regular file. *)
Theorem find_in_path_sound file path f_path :
  _find_in_path file path = Path f_path ->
  exists p entries, p ∈ split ":" path /\ listdir p = Some entries /\
                    file ∈ entries /\ f_path = join p file /\ isfile f_path = true.
Proof.
  unfold _find_in_path. induction (split ":" path) as [|p ps IH]; [done|].
  cbn [search]. destruct (listdir p) as [es|] eqn:El; [|done].
  rewrite scan_spec. case_bool_decide as Hin; cbn [andb].
  - destruct (isfile (join p file)) eqn:Ef.
    + intros [= <-]. exists p, es. repeat split; try done. left.
    + intros (q & qs & ? & ?)%IH. exists q, qs. split; [by right|done].
  - intros (q & qs & ? & ?)%IH. exists q, qs. split; [by right|done].
Qed.

(** X17. The search is decided by the first directory of the path that
    does not merely miss the file: if it cannot be listed the [OSError]
    comes out, even when a later directory holds the program; if it holds
    the file its path is returned, whatever later directories hold. *)
Theorem find_in_path_first_decides file path before p rest :
  split ":" path = before ++ p :: rest ->
  Forall (misses file) before ->
  (listdir p = None -> _find_in_path file path = OSError p) /\
  (forall entries, listdir p = Some entries -> file ∈ entries ->
     isfile (join p file) = true -> _find_in_path file path = Path (join p file)).
Proof.
  intros Hs Hb. unfold _find_in_path. rewrite Hs, (search_misses file before _ Hb).
  cbn [search]. split.
  - by intros ->.
  - intros es -> Hin Hf. rewrite scan_spec, Hf, bool_decide_eq_true_2 by done. done.
Qed.

(** X18. [_find_in_path] returns [None] exactly when every directory of
    the search path can be listed and none holds the file as a regular
    file. *)
Theorem find_in_path_none file path :
  _find_in_path file path = NoPath <-> Forall (misses file) (split ":" path).
Proof.
  unfold _find_in_path. induction (split ":" path) as [|p ps IH].
  - split; [constructor|done].
  - cbn [search]. rewrite Forall_cons, <- IH. unfold misses at 1.
    destruct (listdir p) as [es|] eqn:El.
    + destruct (scan file p es) eqn:Es.
      * split; [done|]. intros [(es' & [= <-] & Hm) _].
        apply scan_None in Hm. congruence.
      * apply scan_None in Es. split; [|by intros [_ ?]].
        intros H. split; [by exists es|done].
    + split; [done|]. by intros [(es' & ? & _) _].
Qed.

End SearchPath.

(** A file system with two directories on the path and one that does not
    exist. *)
Definition two_dirs (p : string) : option (list string) :=
  if String.eqb p "/bin" then Some ["ls"; "cat"]
  else if String.eqb p "/usr/bin" then Some ["curl"; "termux-toast"]
  else None.

Definition slash_join (p file : string) : string := p +:+ "/" +:+ file.

Lemma find_in_path_sound_witness :
  exists p entries, p ∈ split ":" "/bin:/usr/bin" /\ two_dirs p = Some entries /\
                    "curl" ∈ entries /\ "/usr/bin/curl" = slash_join p "curl" /\
                    (fun _ => true) "/usr/bin/curl" = true.
Proof.
  apply (find_in_path_sound two_dirs (fun _ => true) slash_join "curl" "/bin:/usr/bin"
           "/usr/bin/curl").
  reflexivity.
Defined.

Lemma find_in_path_first_decides_witness :
  (two_dirs "/nowhere" = None ->
   _find_in_path two_dirs (fun _ => true) slash_join "curl" "/bin:/nowhere:/usr/bin" =
     OSError "/nowhere") /\
  (forall entries, two_dirs "/nowhere" = Some entries -> "curl" ∈ entries ->
     (fun _ => true) (slash_join "/nowhere" "curl") = true ->
     _find_in_path two_dirs (fun _ => true) slash_join "curl" "/bin:/nowhere:/usr/bin" =
       Path (slash_join "/nowhere" "curl")).
Proof.
  apply (find_in_path_first_decides two_dirs (fun _ => true) slash_join "curl"
           "/bin:/nowhere:/usr/bin" ["/bin"] "/nowhere" ["/usr/bin"]); [reflexivity|].
  constructor; [|constructor].
  exists ["ls"; "cat"]. split; [reflexivity|]. left.
  rewrite !elem_of_cons, elem_of_nil. by intros [|[|]].
Defined.
